(** * HiveSight: the sampling-and-inference pipeline of [app.py]

    A shallow embedding of [src/app.py]: the model gateway
    ([query_claude], [query_claude_async]), the response classifier
    ([is_valid_response]), the explanation summarizer
    ([summarize_explanations]) and the body of [main] that tallies the
    replies and renders the report.

    Conventions of the embedding.
    - A Python [str] is a [string]; each [ascii] stands for one code point
      below 256, and [lower] and [isspace] follow [str.lower] and
      [str.isspace] on that range.
    - The remote service is an oracle [service]; every call made through
      [client.messages.create] is recorded, in issue order, in the [world].
    - Code that may raise lives in the monad [M]: a computation takes a
      [world] and gives back a value or an exception, and the new world.
    - Floating-point numbers are read as the real numbers they approximate.
    - The display layer (progress bar, status text, sleeping, the download
      button) leaves no trace in the model. *)

From Stdlib Require Import List String Ascii Bool Arith NArith ZArith Lia.
From Stdlib Require Import Permutation.
From Stdlib Require Import Reals Lra ClassicalEpsilon.
From Bignums Require Import BigN.
Import ListNotations.

Open Scope string_scope.

(** ** Python strings *)

Module PyStr.

Definition code (c : ascii) : N := N_of_ascii c.

Definition between (lo hi n : N) : bool := ((lo <=? n) && (n <=? hi))%N.

(** [str.isspace] on one code point below 256. *)
Definition isspace (c : ascii) : bool :=
  let n := code c in
  between 9 13 n || between 28 32 n || (n =? 133)%N || (n =? 160)%N.

(** [str.lower] on one code point below 256. *)
Definition lower_char (c : ascii) : ascii :=
  let n := code c in
  if between 65 90 n || (between 192 222 n && negb (n =? 215)%N)
  then ascii_of_N (n + 32)
  else c.

Fixpoint lower (s : string) : string :=
  match s with
  | EmptyString => EmptyString
  | String c s' => String (lower_char c) (lower s')
  end.

(** [s.startswith(p)] *)
Fixpoint startswith (s p : string) : bool :=
  match p with
  | EmptyString => true
  | String a p' =>
      match s with
      | EmptyString => false
      | String b s' => Ascii.eqb a b && startswith s' p'
      end
  end.

Fixpoint lstrip (s : string) : string :=
  match s with
  | EmptyString => EmptyString
  | String c s' => if isspace c then lstrip s' else s
  end.

Fixpoint rstrip (s : string) : string :=
  match s with
  | EmptyString => EmptyString
  | String c s' =>
      match rstrip s' with
      | EmptyString => if isspace c then EmptyString else String c EmptyString
      | r => String c r
      end
  end.

(** [s.strip()] *)
Definition strip (s : string) : string := rstrip (lstrip s).

Definition nl : string := String (ascii_of_nat 10) EmptyString.

(** [sep.join(xs)] *)
Definition join (sep : string) (xs : list string) : string :=
  String.concat sep xs.

(** The one-character strings obtained by iterating over a [str]. *)
Fixpoint chars (s : string) : list string :=
  match s with
  | EmptyString => []
  | String c s' => String c EmptyString :: chars s'
  end.

(** First and last code point, when the string has one. *)
Definition head (s : string) : option ascii :=
  match s with
  | EmptyString => None
  | String c _ => Some c
  end.

Fixpoint last (s : string) : option ascii :=
  match s with
  | EmptyString => None
  | String c EmptyString => Some c
  | String _ s' => last s'
  end.

Definition is_space_opt (o : option ascii) : bool :=
  match o with
  | Some c => isspace c
  | None => false
  end.

(** A string is trimmed when neither end is whitespace. *)
Definition trimmed (s : string) : Prop :=
  is_space_opt (head s) = false /\ is_space_opt (last s) = false.

End PyStr.

(** A value that [main] iterates over: a list of strings, or a single
    string (iterated character by character). *)
Inductive pyseq : Type :=
| PyList (items : list string)
| PyString (s : string).

Definition iterate (v : pyseq) : list string :=
  match v with
  | PyList items => items
  | PyString s => PyStr.chars s
  end.

(** ** The remote service and the world *)

Inductive model_name : Type := Haiku | Sonnet | Opus.

Definition model_map (m : model_name) : string :=
  match m with
  | Haiku => "claude-3-haiku-20240307"
  | Sonnet => "claude-3-sonnet-20240229"
  | Opus => "claude-3-opus-20240229"
  end.

Record request : Type := mkRequest {
  req_max_tokens : nat;
  req_model : string;
  req_content : string
}.

(** A content block either has a [text] attribute or has none. *)
Inductive block : Type :=
| TextBlock (text : string)
| ToolUseBlock.

(** [response.content]: a list of blocks, or [None]. *)
Record response : Type := mkResponse { content : option (list block) }.

Inductive exn : Type :=
| APIError (msg : string)
| IndexError
| AttributeError
| TypeError.

Inductive api_result : Type :=
| Raises (e : exn)
| Returns (r : response).

(** The service answers the [i]-th request issued during the run. *)
Definition service : Type := nat -> request -> api_result.

(** What [print] wrote: the fixed prefix and the exception shown. *)
Record world : Type := mkWorld {
  sent : list request;
  stdout : list (string * exn)
}.

Definition world0 : world := mkWorld [] [].

Inductive result (A : Type) : Type :=
| Ok (a : A)
| Exc (e : exn).
Arguments Ok {A} a.
Arguments Exc {A} e.

Definition M (A : Type) : Type := world -> result A * world.

Definition ret {A} (a : A) : M A := fun w => (Ok a, w).

Definition raise {A} (e : exn) : M A := fun w => (Exc e, w).

Definition bind {A B} (m : M A) (k : A -> M B) : M B :=
  fun w =>
    match m w with
    | (Ok a, w') => k a w'
    | (Exc e, w') => (Exc e, w')
    end.

Notation "x <- m ;; k" := (bind m (fun x => k))
  (at level 61, m at next level, right associativity).

(** [try: body except Exception as e: handler(e)] *)
Definition try_except {A} (body : M A) (handler : exn -> M A) : M A :=
  fun w =>
    match body w with
    | (Ok a, w') => (Ok a, w')
    | (Exc e, w') => handler e w'
    end.

Definition lift {A} (r : exn + A) : M A :=
  match r with
  | inl e => raise e
  | inr a => ret a
  end.

Definition print (prefix : string) (e : exn) : M unit :=
  fun w => (Ok tt, mkWorld (sent w) (stdout w ++ [(prefix, e)])).

(** ** The model gateway *)

Section Gateway.

Variable srv : service.

(** [client.messages.create(...)]: the request is recorded, the service
    answers it. *)
Definition messages_create (req : request) : M response :=
  fun w =>
    let w' := mkWorld (sent w ++ [req]) (stdout w) in
    match srv (List.length (sent w)) req with
    | Raises e => (Exc e, w')
    | Returns r => (Ok r, w')
    end.

(** Truth value of [response.content]: [None] and the empty list are
    falsy. *)
Definition truthy (c : option (list block)) : bool :=
  match c with
  | Some (_ :: _) => true
  | _ => false
  end.

(** [isinstance(response.content, list)] *)
Definition is_list (c : option (list block)) : bool :=
  match c with
  | Some _ => true
  | None => false
  end.

(** [response.content[0]] *)
Definition subscript0 (c : option (list block)) : exn + block :=
  match c with
  | None => inl TypeError
  | Some [] => inl IndexError
  | Some (b :: _) => inr b
  end.

(** [hasattr(b, "text")] *)
Definition hasattr_text (b : block) : bool :=
  match b with
  | TextBlock _ => true
  | ToolUseBlock => false
  end.

(** [b.text] *)
Definition get_text (b : block) : exn + string :=
  match b with
  | TextBlock t => inr t
  | ToolUseBlock => inl AttributeError
  end.

(** The guard [c and isinstance(c, list) and hasattr(c[0], "text")],
    evaluated left to right with short circuit. *)
Definition shape_ok (c : option (list block)) : exn + bool :=
  if truthy c then
    if is_list c then
      match subscript0 c with
      | inl e => inl e
      | inr b => inr (hasattr_text b)
      end
    else inr false
  else inr false.

(** [r.content[0].text.strip()] *)
Definition first_text_stripped (r : response) : exn + string :=
  match subscript0 (content r) with
  | inl e => inl e
  | inr b =>
      match get_text b with
      | inl e => inl e
      | inr t => inr (PyStr.strip t)
      end
  end.

Definition explain_suffix : string :=
  " Begin your response with 'yes' or 'no', and then provide an explanation.".

Definition terse_suffix : string :=
  " Do not reply with anything other than 'yes' or 'no'.".

Definition make_prompt (question : string) (request_explanation : bool) : string :=
  if request_explanation then question ++ explain_suffix
  else question ++ terse_suffix.

Definition error_or_no_data : string := "Error or no data".

Definition api_error_prefix : string := "Error during API call:".

(** [query_claude]: the [try] block either returns a text or falls
    through ([None]); the handler prints and falls through; the last line
    returns the fixed string. *)
Definition query_claude (question : string) (model_type : model_name)
    (request_explanation : bool) : M string :=
  returned <-
    try_except
      (let prompt := make_prompt question request_explanation in
       response <- messages_create (mkRequest 500 (model_map model_type) prompt) ;;
       ok <- lift (shape_ok (content response)) ;;
       if ok : bool then
         t <- lift (first_text_stripped response) ;;
         ret (Some t)
       else ret None)
      (fun e => _ <- print api_error_prefix e ;; ret None) ;;
  match returned with
  | Some t => ret t
  | None => ret error_or_no_data
  end.

(** Outcome of [asyncio.gather] over the answers of the requests, in
    request order: the list of responses, or an exception when one of the
    awaited calls raised.  [gather] re-raises the exception that occurs
    first in time; the model takes the service's answers in request order,
    so that is the one of lowest index. *)
Fixpoint gathered (answers : list api_result) : exn + list response :=
  match answers with
  | [] => inr []
  | Raises e :: _ => inl e
  | Returns r :: rest =>
      match gathered rest with
      | inl e => inl e
      | inr rs => inr (r :: rs)
      end
  end.

(** [asyncio.gather] over [n] copies of [send_message_async(prompt)]: all
    [n] requests are issued, then awaited together. *)
Definition gather_create (req : request) (n : nat) : M (list response) :=
  fun w =>
    let base := List.length (sent w) in
    let w' := mkWorld (sent w ++ repeat req n) (stdout w) in
    match gathered (map (fun i => srv (base + i) req) (seq 0 n)) with
    | inl e => (Exc e, w')
    | inr rs => (Ok rs, w')
    end.

(** [response[0]] on the gathered list *)
Definition first_response (rs : list response) : exn + response :=
  match rs with
  | [] => inl IndexError
  | r :: _ => inr r
  end.

(** [[r.content[0].text.strip() for r in response]] *)
Fixpoint all_texts_stripped (rs : list response) : exn + list string :=
  match rs with
  | [] => inr []
  | r :: rest =>
      match first_text_stripped r with
      | inl e => inl e
      | inr t =>
          match all_texts_stripped rest with
          | inl e => inl e
          | inr ts => inr (t :: ts)
          end
      end
  end.

(** [query_claude_async]: returns the list of stripped texts, or the
    fixed string when anything went wrong. *)
Definition query_claude_async (question : string) (model_type : model_name)
    (request_explanation : bool) (num_queries : nat) : M pyseq :=
  returned <-
    try_except
      (let prompt := make_prompt question request_explanation in
       response <- gather_create (mkRequest 500 (model_map model_type) prompt)
                     num_queries ;;
       r0 <- lift (first_response response) ;;
       ok <- lift (shape_ok (content r0)) ;;
       if ok : bool then
         ts <- lift (all_texts_stripped response) ;;
         ret (Some (PyList ts))
       else ret None)
      (fun e => _ <- print api_error_prefix e ;; ret None) ;;
  match returned with
  | Some v => ret v
  | None => ret (PyString error_or_no_data)
  end.

(** ** The response classifier *)

Definition is_valid_response (response : string) (request_explanation : bool) : bool :=
  if request_explanation then
    PyStr.startswith (PyStr.lower response) "yes"
    || PyStr.startswith (PyStr.lower response) "no"
  else
    (PyStr.lower response =? "yes") || (PyStr.lower response =? "no").

(** ** The explanation summarizer *)

Definition summary_header : string :=
  "Please provide a concise summary of the main points from the following explanations:"
  ++ PyStr.nl ++ PyStr.nl.

Definition summary_prompt (explanations : pyseq) : string :=
  summary_header ++ PyStr.join PyStr.nl (iterate explanations).

Definition error_summarizing : string := "Error summarizing explanations".

(** [summarize_explanations]: no [try] around the call. *)
Definition summarize_explanations (explanations : pyseq) : M string :=
  response <- messages_create
                (mkRequest 200 "claude-3-opus-20240229" (summary_prompt explanations)) ;;
  ok <- lift (shape_ok (content response)) ;;
  if ok : bool then lift (first_text_stripped response)
  else ret error_summarizing.

End Gateway.

(** ** The posterior interval *)

(** Modelled from the spec: [scipy.stats.beta] is a library outside the
    repository; the spec asks for "the 2.5th and 97.5th percentiles of
    that Beta distribution".  For whole-number parameters [a, b >= 1] the
    distribution function of Beta(a, b) at [x] is the probability that a
    Binomial(a + b - 1, x) variable is at least [a]; [binom_tail n a x] is
    that upper tail, by the usual recurrence on the number of trials. *)
Fixpoint binom_tail (n a : nat) (x : R) : R :=
  match n with
  | O => match a with O => 1 | S _ => 0 end
  | S n' =>
      match a with
      | O => 1
      | S a' => x * binom_tail n' a' x + (1 - x) * binom_tail n' a x
      end
  end%R.

(** Modelled from the spec: the distribution function of Beta(a, b) for
    whole-number parameters [a, b >= 1]. *)
Definition beta_cdf (a b : nat) (x : R) : R := binom_tail (a + b - 1) a x.

(** Modelled from the spec: [x] is the [q]-th percentile of Beta(a, b),
    the point of [[0, 1]] where the distribution function takes the
    value [q]. *)
Definition is_percentile (q : R) (a b : nat) (x : R) : Prop :=
  (0 <= x <= 1)%R /\ beta_cdf a b x = q.

(** Modelled from the spec: [beta.ppf(q, a, b)], the percentile as a
    function. *)
Definition beta_ppf (q : R) (a b : nat) : R :=
  epsilon (inhabits 0%R) (is_percentile q a b).

(** Modelled from the spec: [beta.interval(confidence, a, b)], the
    equal-tailed interval between two percentiles. *)
Definition beta_interval (confidence : R) (a b : nat) : R * R :=
  (beta_ppf ((1 - confidence) / 2) a b, beta_ppf ((1 + confidence) / 2) a b).

(** ** The run *)

Record config : Type := mkConfig {
  model_type : model_name;
  question : string;
  num_queries : nat;
  request_explanation : bool;
  use_async : bool
}.

(** The variables [main] holds once the replies are collected. *)
Record tally : Type := mkTally {
  yes_count : nat;
  no_count : nat;
  valid_responses : nat;
  raw_responses : pyseq;
  explanations : pyseq
}.

(** [sum] over a list of booleans. *)
Definition sum_bools (flags : list bool) : nat := list_sum (map Nat.b2n flags).

(** The three lists and the sums of the asynchronous branch. *)
Definition valid_flags (raw : pyseq) (request_explanation : bool) : list bool :=
  map (fun r_text => is_valid_response r_text request_explanation) (iterate raw).

Definition yes_flags (raw : pyseq) (request_explanation : bool) : list bool :=
  map (fun p : string * bool =>
         let (r_text, is_valid) := p in
         PyStr.startswith (PyStr.lower r_text) "yes" && is_valid)
      (combine (iterate raw) (valid_flags raw request_explanation)).

Definition no_flags (raw : pyseq) (request_explanation : bool) : list bool :=
  map (fun p : string * bool =>
         let (r_text, is_valid) := p in
         PyStr.startswith (PyStr.lower r_text) "no" && is_valid)
      (combine (iterate raw) (valid_flags raw request_explanation)).

Definition tally_async (raw : pyseq) (request_explanation : bool) : tally :=
  mkTally (sum_bools (yes_flags raw request_explanation))
          (sum_bools (no_flags raw request_explanation))
          (sum_bools (valid_flags raw request_explanation))
          raw
          (if request_explanation then raw else PyList []).

(** The variables of the sequential branch, updated by each turn of the
    loop. *)
Record loop_state : Type := mkLoop {
  l_yes : nat;
  l_no : nat;
  l_valid : nat;
  l_raw : list string;
  l_expl : list string
}.

Definition loop_init : loop_state := mkLoop 0 0 0 [] [].

(** One turn of the loop body, after [query_claude] has returned
    [response_text]. *)
Definition loop_body (request_explanation : bool) (st : loop_state)
    (response_text : string) : loop_state :=
  let raw := (l_raw st ++ [response_text])%list in
  if is_valid_response response_text request_explanation then
    let yes := if PyStr.startswith (PyStr.lower response_text) "yes"
               then l_yes st + 1 else l_yes st in
    let no := if PyStr.startswith (PyStr.lower response_text) "yes"
              then l_no st else l_no st + 1 in
    mkLoop yes no (l_valid st + 1) raw
           (if request_explanation
            then (l_expl st ++ [response_text])%list else l_expl st)
  else
    mkLoop (l_yes st) (l_no st) (l_valid st) raw (l_expl st).

Definition tally_of_loop (st : loop_state) : tally :=
  mkTally (l_yes st) (l_no st) (l_valid st) (PyList (l_raw st)) (PyList (l_expl st)).

(** The verdict that the loop body gives one reply. *)
Inductive verdict : Type := Yes | No | Invalid.

Definition classify (response : string) (request_explanation : bool) : verdict :=
  if is_valid_response response request_explanation then
    if PyStr.startswith (PyStr.lower response) "yes" then Yes else No
  else Invalid.

Definition verdict_eqb (u v : verdict) : bool :=
  match u, v with
  | Yes, Yes | No, No | Invalid, Invalid => true
  | _, _ => false
  end.

(** Number of replies of a sequence that get verdict [v]. *)
Definition count_verdict (v : verdict) (request_explanation : bool)
    (texts : list string) : nat :=
  List.length
    (filter (fun t => verdict_eqb (classify t request_explanation) v) texts).

(** What the success message and the data frame are built from; the
    message shows the three numbers rounded to one decimal. *)
Record report : Type := mkReport {
  rep_valid : nat;
  rep_yes_percentage : R;
  rep_ci_low : R;
  rep_ci_high : R;
  rep_summary : option string;
  rep_rows : pyseq
}.

Inductive screen : Type :=
| Success (r : report)
| Error (msg : string).

Definition no_valid_responses : string := "No valid responses received from Claude.".

(** Lines 186-214: the report, from the variables of [main]. *)
Definition render (t : tally) (request_explanation : bool)
    (explanation_summary : option string) : screen :=
  if (0 <? valid_responses t)%nat then
    let yes_percentage := (INR (yes_count t) / INR (valid_responses t) * 100)%R in
    let (ci_low, ci_high) := beta_interval (95 / 100) (yes_count t + 1) (no_count t + 1) in
    Success (mkReport (valid_responses t) yes_percentage
                      (ci_low * 100)%R (ci_high * 100)%R
                      (if request_explanation then explanation_summary else None)
                      (raw_responses t))
  else Error no_valid_responses.

Section Run.

Variable srv : service.

(** The [for] loop of the sequential branch. *)
Fixpoint sequential_loop (cfg : config) (n : nat) (st : loop_state) : M loop_state :=
  match n with
  | O => ret st
  | S n' =>
      response_text <- query_claude srv (question cfg) (model_type cfg)
                         (request_explanation cfg) ;;
      sequential_loop cfg n' (loop_body (request_explanation cfg) st response_text)
  end.

(** Lines 134-177: both branches end with the same five variables. *)
Definition collect (cfg : config) : M tally :=
  if use_async cfg then
    raw <- query_claude_async srv (question cfg) (model_type cfg)
             (request_explanation cfg) (num_queries cfg) ;;
    ret (tally_async raw (request_explanation cfg))
  else
    st <- sequential_loop cfg (num_queries cfg) loop_init ;;
    ret (tally_of_loop st).

(** Lines 179-182: the summarizer runs under this guard only. *)
Definition summarize_if_needed (cfg : config) (t : tally) : M (option string) :=
  if request_explanation cfg && (0 <? valid_responses t)%nat then
    s <- summarize_explanations srv (explanations t) ;;
    ret (Some s)
  else ret None.

(** Lines 134-182: the queries of the run and, under its guard, the
    summary. *)
Definition run_queries (cfg : config) : M (tally * option string) :=
  t <- collect cfg ;;
  explanation_summary <- summarize_if_needed cfg t ;;
  ret (t, explanation_summary).

(** [main], once the button is pressed. *)
Definition main (cfg : config) : M screen :=
  p <- run_queries cfg ;;
  ret (render (fst p) (request_explanation cfg) (snd p)).

(** The raw outcomes the run works with. *)
Definition dispatch (cfg : config) : M pyseq :=
  t <- collect cfg ;;
  ret (raw_responses t).

End Run.

(** ** The estimate and the interval compared *)

(** Probability that a Binomial(n, x) variable equals [a]. *)
Definition binom_mass (n a : nat) (x : R) : R :=
  (binom_tail n a x - binom_tail n (S a) x)%R.

(** The falling factorial [n (n-1) ... (n-a+1)]. *)
Fixpoint falling (n a : nat) : nat :=
  match a with
  | O => 1
  | S a' => n * falling (n - 1) a'
  end.

(** Products of small factors, accumulated in a big natural number. *)
Fixpoint mul_pow (b : bigN) (e : nat) (acc : bigN) : bigN :=
  match e with
  | O => acc
  | S e' => mul_pow b e' (BigN.mul b acc)
  end.

Fixpoint mul_falling (n a : nat) (acc : bigN) : bigN :=
  match a with
  | O => acc
  | S a' => mul_falling (n - 1) a' (BigN.mul (BigN.of_N (N.of_nat n)) acc)
  end.

Fixpoint mul_fact (a : nat) (acc : bigN) : bigN :=
  match a with
  | O => acc
  | S a' => mul_fact a' (BigN.mul (BigN.of_N (N.of_nat a)) acc)
  end.

Definition big (k : nat) : bigN := BigN.of_N (N.of_nat k).

(** For [y] Yes and [m] No replies, with [n = y + m + 1] trials and
    success probability [y / (y + m)]: the probabilities of exactly
    [y + 1] and of exactly [y] successes both exceed 1/40.  The test
    compares whole numbers: both sides are cleared of denominators. *)
Definition mass_check (y m : nat) : bool :=
  let n := y + m + 1 in
  let K := mul_pow (big m) m (mul_pow (big y) y (mul_falling n y (big 40))) in
  let D := mul_pow (big (y + m)) n (mul_fact y (big 1)) in
  BigN.ltb (BigN.mul (big (y + 1)) D) (BigN.mul (big ((n - y) * y)) K)
  && BigN.ltb D (BigN.mul (big m) K).

(** The pairs of positive counts whose sum is at most [cap]. *)
Definition count_pairs (cap : nat) : list (nat * nat) :=
  flat_map (fun y => map (fun m => (y, m)) (seq 1 (cap - y))) (seq 1 cap).

Definition mass_check_upto (cap : nat) : bool :=
  forallb (fun p => mass_check (fst p) (snd p)) (count_pairs cap).

(** The bounds on a report in the words of the spec, for the counts
    [yes] and [no] behind it. *)
Definition interval_claim (yes no : nat) (r : report) : Prop :=
  ((0 <= rep_ci_low r <= rep_yes_percentage r)%R
   /\ (rep_yes_percentage r <= rep_ci_high r <= 100)%R)
  /\ (0 < yes -> no = 0 -> (rep_ci_high r < 100)%R)
  /\ (yes = 0 -> 0 < no -> (0 < rep_ci_low r)%R).

(** ** Vocabulary of the properties *)

(** The outcome of one gateway call as the spec describes it, and the
    string that stands for it in the code. *)
Inductive raw_outcome : Type :=
| Text (t : string)
| Failure.

Definition outcome_text (o : raw_outcome) : string :=
  match o with
  | Text t => t
  | Failure => error_or_no_data
  end.

(** The classifier in the words of the spec: the comparison is made on
    the trimmed lowercase text. *)
Definition spec_classify (o : raw_outcome) (explanationMode : bool) : verdict :=
  match o with
  | Failure => Invalid
  | Text t =>
      let s := PyStr.lower (PyStr.strip t) in
      if explanationMode then
        if PyStr.startswith s "yes" then Yes
        else if PyStr.startswith s "no" then No
        else Invalid
      else
        if s =? "yes" then Yes
        else if s =? "no" then No
        else Invalid
  end.

(** The text one gateway call turns an answer of the service into. *)
Definition reply_of (a : api_result) : string :=
  match a with
  | Raises _ => error_or_no_data
  | Returns r =>
      match content r with
      | Some (TextBlock t :: _) => PyStr.strip t
      | _ => error_or_no_data
      end
  end.

(** The outcome the gateway makes of an answer of the service: the
    stripped first text, or a failure. *)
Definition outcome_of (a : api_result) : raw_outcome :=
  match a with
  | Raises _ => Failure
  | Returns r =>
      match content r with
      | Some (TextBlock t :: _) => Text (PyStr.strip t)
      | _ => Failure
      end
  end.

(** A string made of whitespace only, the empty string included. *)
Fixpoint whitespace_only (s : string) : bool :=
  match s with
  | EmptyString => true
  | String c s' => PyStr.isspace c && whitespace_only s'
  end.

(** Value and final world of a finished computation. *)
Definition value {A} (out : result A * world) : result A := fst out.

Definition final {A} (out : result A * world) : world := snd out.

(** An answer from which [query_claude_async] can read a text. *)
Definition well_formed (a : api_result) : bool :=
  match a with
  | Returns r =>
      match content r with
      | Some (TextBlock _ :: _) => true
      | _ => false
      end
  | Raises _ => false
  end.

(** The answers the service gives to the [n] requests of one
    asynchronous batch issued in world [w]. *)
Definition batch_answers (srv : service) (q : string) (m : model_name)
    (re : bool) (n : nat) (w : world) : list api_result :=
  map (fun i => srv (List.length (sent w) + i)
                    (mkRequest 500 (model_map m) (make_prompt q re)))
      (seq 0 n).

(** The request every query of a run sends. *)
Definition query_request (cfg : config) : request :=
  mkRequest 500 (model_map (model_type cfg))
            (make_prompt (question cfg) (request_explanation cfg)).

(** The texts the sequential loop obtains, in issue order, when it makes
    [n] queries starting in world [w]. *)
Definition sequential_replies (srv : service) (cfg : config) (n : nat)
    (w : world) : list string :=
  map (fun i => reply_of (srv (List.length (sent w) + i) (query_request cfg)))
      (seq 0 n).

(** A service that answers the [i]-th request with the [i]-th entry of a
    script, and with a connection error once the script is exhausted. *)
Definition text_answer (t : string) : api_result :=
  Returns (mkResponse (Some [TextBlock t])).

Definition scripted (answers : list api_result) : service :=
  fun i _ => nth i answers (Raises (APIError "connection reset")).

(** Scripted runs used as concrete inputs below. *)
Definition one_failure_service : service :=
  scripted [text_answer "yes"; Raises (APIError "overloaded"); text_answer "no"].

Definition one_failure_run (async : bool) : config :=
  mkConfig Haiku "Is the sky blue?" 3 false async.

Definition mixed_service : service :=
  scripted [text_answer "yes, because X"; text_answer "maybe";
            text_answer "Both mention X."].

Definition mixed_run (async : bool) : config :=
  mkConfig Opus "Is the sky blue?" 2 true async.

Definition lost_summary_service : service :=
  scripted [text_answer "yes, because X"].

Definition lost_summary_run : config :=
  mkConfig Sonnet "Is the sky blue?" 1 true false.

Definition all_yes_service : service := scripted [text_answer "yes"].

Definition all_yes_run : config :=
  mkConfig Haiku "Is the sky blue?" 1 false false.

(** The scenarios of the spec: five terse replies of which one is not
    an answer, and a service that fails every call. *)
Definition scenario_service : service :=
  scripted [text_answer "yes"; text_answer "no"; text_answer "maybe";
            text_answer "YES"; text_answer "no"].

Definition scenario_run (async : bool) : config :=
  mkConfig Sonnet "Is the sky blue?" 5 false async.

Definition failing_service : service := scripted [].

Definition failing_run (async : bool) : config :=
  mkConfig Sonnet "Is the sky blue?" 3 false async.

(** ** Vocabulary of the further properties *)

(** The same run in the other mode. *)
Definition with_async (cfg : config) (async : bool) : config :=
  mkConfig (model_type cfg) (question cfg) (num_queries cfg)
           (request_explanation cfg) async.

(** What one call of [query_claude] prints for an answer of the
    service. *)
Definition printed_line (a : api_result) : list (string * exn) :=
  match a with
  | Raises e => [(api_error_prefix, e)]
  | Returns _ => []
  end.

(** The tally of the negated question: Yes and No change places. *)
Definition swap_counts (t : tally) : tally :=
  mkTally (no_count t) (yes_count t) (valid_responses t)
          (raw_responses t) (explanations t).

(** A run whose summarizing call is answered with an empty content. *)
Definition empty_summary_service : service :=
  scripted [text_answer "yes, because X"; Returns (mkResponse (Some []))].

(** * Properties *)

(** ** Strings *)

Lemma lstrip_head (s : string) :
  PyStr.is_space_opt (PyStr.head (PyStr.lstrip s)) = false.
Proof.
  induction s as [|c s IH]; simpl; auto.
  destruct (PyStr.isspace c) eqn:E; simpl; auto.
Qed.

Lemma rstrip_last (s : string) :
  PyStr.is_space_opt (PyStr.last (PyStr.rstrip s)) = false.
Proof.
  induction s as [|c s IH]; simpl; auto.
  destruct (PyStr.rstrip s) as [|c' r] eqn:E.
  - destruct (PyStr.isspace c) eqn:Ec; simpl; auto.
  - exact IH.
Qed.

Lemma rstrip_head (s : string) :
  PyStr.is_space_opt (PyStr.head s) = false ->
  PyStr.head (PyStr.rstrip s) = PyStr.head s.
Proof.
  destruct s as [|c s]; simpl; auto.
  intros Hc. destruct (PyStr.rstrip s); [rewrite Hc|]; reflexivity.
Qed.

Lemma strip_trimmed (s : string) : PyStr.trimmed (PyStr.strip s).
Proof.
  unfold PyStr.trimmed, PyStr.strip. split.
  - rewrite rstrip_head; apply lstrip_head.
  - apply rstrip_last.
Qed.

Lemma lstrip_fixed (s : string) :
  PyStr.is_space_opt (PyStr.head s) = false -> PyStr.lstrip s = s.
Proof.
  destruct s as [|c s]; simpl; auto.
  intros ->. reflexivity.
Qed.

Lemma rstrip_fixed (s : string) :
  PyStr.is_space_opt (PyStr.last s) = false -> PyStr.rstrip s = s.
Proof.
  induction s as [|c s IH]; simpl; auto.
  destruct s as [|c' s'].
  - simpl. intros ->. reflexivity.
  - intros H. rewrite (IH H). reflexivity.
Qed.

Lemma strip_fixed (s : string) : PyStr.trimmed s -> PyStr.strip s = s.
Proof.
  intros [Hh Hl]. unfold PyStr.strip.
  rewrite (lstrip_fixed s Hh). apply rstrip_fixed, Hl.
Qed.

Lemma strip_idempotent (s : string) :
  PyStr.strip (PyStr.strip s) = PyStr.strip s.
Proof. apply strip_fixed, strip_trimmed. Qed.

Lemma error_or_no_data_trimmed : PyStr.trimmed error_or_no_data.
Proof. split; reflexivity. Qed.

Lemma startswith_cons (a b : ascii) (s p : string) :
  PyStr.startswith (String b s) (String a p) = (Ascii.eqb a b && PyStr.startswith s p)%bool.
Proof. reflexivity. Qed.

Lemma startswith_empty (a : ascii) (p : string) :
  PyStr.startswith EmptyString (String a p) = false.
Proof. reflexivity. Qed.

Lemma startswith_yes_not_no (s : string) :
  PyStr.startswith s "yes" = true -> PyStr.startswith s "no" = false.
Proof.
  destruct s as [|c s].
  - rewrite startswith_empty. discriminate.
  - rewrite !startswith_cons.
    destruct (Ascii.eqb_spec "y" c) as [<-|]; intros H;
      [reflexivity | discriminate H].
Qed.

Lemma eqb_startswith (s p : string) :
  (s =? p) = true -> PyStr.startswith s p = true.
Proof.
  intros H. apply String.eqb_eq in H. subst s.
  induction p as [|c p IH]; [reflexivity|].
  rewrite startswith_cons, Ascii.eqb_refl. exact IH.
Qed.

Lemma lower_head_space (s : string) :
  PyStr.is_space_opt (PyStr.head s) = true ->
  PyStr.is_space_opt (PyStr.head (PyStr.lower s)) = true.
Proof.
  destruct s as [|c s]; simpl; auto.
  unfold PyStr.isspace, PyStr.lower_char, PyStr.code.
  destruct c as [[] [] [] [] [] [] [] []]; vm_compute; auto.
Qed.

Lemma startswith_head (s p : string) (c : ascii) :
  PyStr.startswith s (String c p) = true -> PyStr.head s = Some c.
Proof.
  destruct s as [|d s].
  - rewrite startswith_empty. discriminate.
  - rewrite startswith_cons.
    destruct (Ascii.eqb_spec c d) as [<-|]; intros H;
      [reflexivity | discriminate H].
Qed.

(** ** The classifier *)

Lemma classify_terse (t : string) :
  classify t false =
  if PyStr.lower t =? "yes" then Yes
  else if PyStr.lower t =? "no" then No
  else Invalid.
Proof.
  unfold classify, is_valid_response.
  destruct (PyStr.lower t =? "yes") eqn:Ey; simpl.
  - rewrite (eqb_startswith _ _ Ey). reflexivity.
  - destruct (PyStr.lower t =? "no") eqn:En; [|reflexivity].
    destruct (PyStr.startswith (PyStr.lower t) "yes") eqn:Es; [|reflexivity].
    apply startswith_yes_not_no in Es.
    rewrite (eqb_startswith _ _ En) in Es. discriminate.
Qed.

Lemma classify_explained (t : string) :
  classify t true =
  if PyStr.startswith (PyStr.lower t) "yes" then Yes
  else if PyStr.startswith (PyStr.lower t) "no" then No
  else Invalid.
Proof.
  unfold classify, is_valid_response.
  destruct (PyStr.startswith (PyStr.lower t) "yes"); simpl; [reflexivity|].
  destruct (PyStr.startswith (PyStr.lower t) "no"); reflexivity.
Qed.

Lemma classify_failure (mode : bool) : classify error_or_no_data mode = Invalid.
Proof. destruct mode; reflexivity. Qed.

Lemma classify_leading_space (t : string) (mode : bool) :
  PyStr.is_space_opt (PyStr.head t) = true -> classify t mode = Invalid.
Proof.
  intros H. apply lower_head_space in H.
  assert (Hy : PyStr.startswith (PyStr.lower t) "yes" = false).
  { destruct (PyStr.startswith (PyStr.lower t) "yes") eqn:E; auto.
    apply startswith_head in E. rewrite E in H. discriminate. }
  assert (Hn : PyStr.startswith (PyStr.lower t) "no" = false).
  { destruct (PyStr.startswith (PyStr.lower t) "no") eqn:E; auto.
    apply startswith_head in E. rewrite E in H. discriminate. }
  destruct mode.
  - rewrite classify_explained, Hy, Hn. reflexivity.
  - rewrite classify_terse.
    destruct (PyStr.lower t =? "yes") eqn:Ey.
    { apply eqb_startswith in Ey. congruence. }
    destruct (PyStr.lower t =? "no") eqn:En; auto.
    apply eqb_startswith in En. congruence.
Qed.

Lemma classify_stripped (t : string) (mode : bool) :
  classify (PyStr.strip t) mode = spec_classify (Text t) mode.
Proof.
  destruct mode; simpl.
  - apply classify_explained.
  - apply classify_terse.
Qed.

(** ** The gateway *)

Lemma shape_ok_total (c : option (list block)) :
  shape_ok c =
  inr match c with
      | Some (TextBlock _ :: _) => true
      | _ => false
      end.
Proof. destruct c as [[|[t|] bs]|]; reflexivity. Qed.

Lemma reply_of_trimmed (a : api_result) : PyStr.trimmed (reply_of a).
Proof.
  destruct a as [e|[[[|[t|] bs]|]]]; simpl;
    try apply error_or_no_data_trimmed.
  apply strip_trimmed.
Qed.

(** One call of [query_claude], spelled out: the request is sent; an
    exception is printed and replaced by the fixed string; a response is
    turned into its stripped first text, or into the fixed string when it
    has no such text. *)
Lemma query_claude_run (srv : service) (q : string) (m : model_name)
    (re : bool) (w : world) :
  let req := mkRequest 500 (model_map m) (make_prompt q re) in
  query_claude srv q m re w =
  match srv (List.length (sent w)) req with
  | Raises e =>
      (Ok error_or_no_data,
       mkWorld (sent w ++ [req]) (stdout w ++ [(api_error_prefix, e)]))
  | Returns r =>
      (Ok (reply_of (Returns r)), mkWorld (sent w ++ [req]) (stdout w))
  end.
Proof.
  intros req.
  unfold query_claude, bind, try_except, messages_create. fold req.
  destruct (srv (List.length (sent w)) req) as [e|[[[|[t|] bs]|]]];
    reflexivity.
Qed.

Lemma query_claude_value (srv : service) (q : string) (m : model_name)
    (re : bool) (w : world) :
  value (query_claude srv q m re w) =
  Ok (reply_of (srv (List.length (sent w))
                    (mkRequest 500 (model_map m) (make_prompt q re)))).
Proof.
  rewrite query_claude_run.
  destruct (srv _ _); reflexivity.
Qed.

Lemma query_claude_sent (srv : service) (q : string) (m : model_name)
    (re : bool) (w : world) :
  sent (final (query_claude srv q m re w)) =
  (sent w ++ [mkRequest 500 (model_map m) (make_prompt q re)])%list.
Proof.
  rewrite query_claude_run.
  destruct (srv _ _); reflexivity.
Qed.

Lemma gathered_returns (answers : list api_result) (rs : list response) :
  gathered answers = inr rs -> answers = map Returns rs.
Proof.
  revert rs. induction answers as [|[e|r] rest IH]; simpl; intros rs H.
  - injection H as <-. reflexivity.
  - discriminate.
  - destruct (gathered rest) as [e|rs'] eqn:E; [discriminate|].
    injection H as <-. simpl. rewrite (IH rs' eq_refl). reflexivity.
Qed.

Lemma gathered_raises (answers : list api_result) (e : exn) :
  gathered answers = inl e -> forallb well_formed answers = false.
Proof.
  induction answers as [|[e'|r] rest IH]; simpl; intros H.
  - discriminate.
  - reflexivity.
  - destruct (gathered rest) as [e'|rs'] eqn:E; [|discriminate].
    rewrite (IH H). apply andb_false_r.
Qed.

Lemma gathered_map_returns (rs : list response) :
  gathered (map Returns rs) = inr rs.
Proof.
  induction rs as [|r rs IH]; simpl; [reflexivity|].
  rewrite IH. reflexivity.
Qed.

Lemma all_texts_stripped_spec (rs : list response) :
  all_texts_stripped rs =
  if forallb well_formed (map Returns rs)
  then inr (map reply_of (map Returns rs))
  else match all_texts_stripped rs with
       | inl e => inl e
       | inr _ => inl IndexError
       end.
Proof.
  induction rs as [|[[[|[t|] bs]|]] rs IH]; simpl; try reflexivity.
  unfold first_text_stripped. simpl.
  rewrite IH.
  destruct (forallb well_formed (map Returns rs)); [reflexivity|].
  destruct (all_texts_stripped rs); reflexivity.
Qed.

Lemma all_texts_stripped_fails (rs : list response) :
  forallb well_formed (map Returns rs) = false ->
  exists e, all_texts_stripped rs = inl e.
Proof.
  intros H. rewrite all_texts_stripped_spec, H.
  destruct (all_texts_stripped rs) as [e|ts]; eauto.
Qed.

(** The value of [query_claude_async]: the list of stripped texts when
    every one of the [n >= 1] answers is well formed, and the fixed string
    otherwise.  All [n] requests are sent either way. *)
Lemma query_claude_async_run (srv : service) (q : string) (m : model_name)
    (re : bool) (n : nat) (w : world) :
  value (query_claude_async srv q m re n w) =
  Ok (if (0 <? n)%nat && forallb well_formed (batch_answers srv q m re n w)
      then PyList (map reply_of (batch_answers srv q m re n w))
      else PyString error_or_no_data)
  /\ sent (final (query_claude_async srv q m re n w)) =
     (sent w ++ repeat (mkRequest 500 (model_map m) (make_prompt q re)) n)%list.
Proof.
  unfold query_claude_async, bind, try_except, gather_create, batch_answers.
  set (answers := map _ (seq 0 n)).
  assert (Hlen : List.length answers = n)
    by (unfold answers; rewrite length_map, length_seq; reflexivity).
  destruct (gathered answers) as [e|rs] eqn:G.
  - rewrite (gathered_raises _ _ G), andb_false_r. split; reflexivity.
  - pose proof (gathered_returns _ _ G) as Hrs. rewrite Hrs.
    destruct rs as [|[c0] rs].
    + rewrite Hrs in Hlen. simpl in Hlen. subst n. split; reflexivity.
    + assert (Hn : (0 <? n)%nat = true).
      { apply Nat.ltb_lt. rewrite <- Hlen, Hrs. simpl. lia. }
      rewrite Hn.
      destruct c0 as [[|[t|] bs]|]; try (split; reflexivity).
      cbn [map forallb well_formed content andb].
      cbn [lift first_response ret shape_ok truthy is_list subscript0
           hasattr_text content all_texts_stripped first_text_stripped
           get_text].
      rewrite (all_texts_stripped_spec rs).
      destruct (forallb well_formed (map Returns rs)) eqn:F.
      * split; reflexivity.
      * destruct (all_texts_stripped rs); split; reflexivity.
Qed.

Lemma query_claude_async_value (srv : service) (q : string) (m : model_name)
    (re : bool) (n : nat) (w : world) :
  value (query_claude_async srv q m re n w) =
  Ok (if (0 <? n)%nat && forallb well_formed (batch_answers srv q m re n w)
      then PyList (map reply_of (batch_answers srv q m re n w))
      else PyString error_or_no_data).
Proof. apply query_claude_async_run. Qed.

(** ** Counting *)

Lemma count_verdict_cons (v : verdict) (re : bool) (t : string)
    (ts : list string) :
  count_verdict v re (t :: ts) =
  Nat.b2n (verdict_eqb (classify t re) v) + count_verdict v re ts.
Proof.
  unfold count_verdict. simpl.
  destruct (verdict_eqb (classify t re) v); reflexivity.
Qed.

Lemma count_verdict_app (v : verdict) (re : bool) (ts us : list string) :
  count_verdict v re (ts ++ us) = count_verdict v re ts + count_verdict v re us.
Proof.
  unfold count_verdict. rewrite filter_app, length_app. reflexivity.
Qed.

(** Every reply gets exactly one verdict. *)
Lemma count_verdict_partition (re : bool) (ts : list string) :
  count_verdict Yes re ts + count_verdict No re ts + count_verdict Invalid re ts
  = List.length ts.
Proof.
  induction ts as [|t ts IH]; [reflexivity|].
  rewrite !count_verdict_cons. simpl List.length.
  destruct (classify t re); simpl; lia.
Qed.

Lemma is_valid_classify (t : string) (re : bool) :
  is_valid_response t re = negb (verdict_eqb (classify t re) Invalid).
Proof.
  unfold classify. destruct (is_valid_response t re); [|reflexivity].
  destruct (PyStr.startswith (PyStr.lower t) "yes"); reflexivity.
Qed.

Lemma yes_flag_classify (t : string) (re : bool) :
  PyStr.startswith (PyStr.lower t) "yes" && is_valid_response t re
  = verdict_eqb (classify t re) Yes.
Proof.
  unfold classify. destruct (is_valid_response t re).
  - destruct (PyStr.startswith (PyStr.lower t) "yes"); reflexivity.
  - rewrite andb_false_r. reflexivity.
Qed.

Lemma valid_startswith (t : string) (re : bool) :
  is_valid_response t re = true ->
  PyStr.startswith (PyStr.lower t) "no"
  = negb (PyStr.startswith (PyStr.lower t) "yes").
Proof.
  unfold is_valid_response. intros H.
  destruct (PyStr.startswith (PyStr.lower t) "yes") eqn:Ey.
  - apply startswith_yes_not_no, Ey.
  - destruct re.
    + simpl in H. rewrite H. reflexivity.
    + apply orb_prop in H as [H|H].
      * apply eqb_startswith in H. congruence.
      * apply eqb_startswith in H. rewrite H. reflexivity.
Qed.

Lemma no_flag_classify (t : string) (re : bool) :
  PyStr.startswith (PyStr.lower t) "no" && is_valid_response t re
  = verdict_eqb (classify t re) No.
Proof.
  unfold classify. destruct (is_valid_response t re) eqn:V.
  - rewrite (valid_startswith _ _ V).
    destruct (PyStr.startswith (PyStr.lower t) "yes"); reflexivity.
  - rewrite andb_false_r. reflexivity.
Qed.

Lemma map_combine_map {A B C} (f : A -> B) (g : A * B -> C) (l : list A) :
  map g (combine l (map f l)) = map (fun x => g (x, f x)) l.
Proof.
  induction l as [|x l IH]; simpl; [reflexivity|].
  rewrite IH. reflexivity.
Qed.

Lemma sum_bools_count (f : string -> bool) (v : verdict) (re : bool)
    (ts : list string) :
  (forall t, f t = verdict_eqb (classify t re) v) ->
  sum_bools (map f ts) = count_verdict v re ts.
Proof.
  intros Hf. unfold sum_bools.
  induction ts as [|t ts IH]; [reflexivity|].
  rewrite count_verdict_cons. simpl. rewrite IH, Hf. reflexivity.
Qed.

Lemma sum_bools_valid (re : bool) (ts : list string) :
  sum_bools (map (fun t => is_valid_response t re) ts)
  = count_verdict Yes re ts + count_verdict No re ts.
Proof.
  unfold sum_bools.
  induction ts as [|t ts IH]; [reflexivity|].
  rewrite !count_verdict_cons. simpl. rewrite IH, is_valid_classify.
  destruct (classify t re); simpl; lia.
Qed.

(** The sums of the asynchronous branch count the verdicts. *)
Lemma tally_async_counts (raw : pyseq) (re : bool) :
  yes_count (tally_async raw re) = count_verdict Yes re (iterate raw)
  /\ no_count (tally_async raw re) = count_verdict No re (iterate raw)
  /\ valid_responses (tally_async raw re)
     = count_verdict Yes re (iterate raw) + count_verdict No re (iterate raw).
Proof.
  unfold tally_async, yes_flags, no_flags, valid_flags. cbn [yes_count no_count valid_responses].
  rewrite !map_combine_map. repeat split.
  - apply sum_bools_count. intros t. apply yes_flag_classify.
  - apply sum_bools_count. intros t. apply no_flag_classify.
  - apply sum_bools_valid.
Qed.

(** The loop body counts one verdict and appends the reply. *)
Lemma loop_body_counts (re : bool) (st : loop_state) (t : string) :
  let st' := loop_body re st t in
  l_yes st' = l_yes st + Nat.b2n (verdict_eqb (classify t re) Yes)
  /\ l_no st' = l_no st + Nat.b2n (verdict_eqb (classify t re) No)
  /\ l_valid st' = l_valid st + Nat.b2n (is_valid_response t re)
  /\ l_raw st' = (l_raw st ++ [t])%list
  /\ l_expl st' =
     (l_expl st ++ if re && is_valid_response t re then [t] else [])%list.
Proof.
  unfold loop_body, classify.
  destruct (is_valid_response t re); cbn [l_yes l_no l_valid l_raw l_expl].
  - destruct (PyStr.startswith (PyStr.lower t) "yes"), re; simpl;
      rewrite ?app_nil_r; repeat split; lia.
  - rewrite andb_false_r, app_nil_r. simpl. repeat split; lia.
Qed.

Lemma loop_fold_counts (re : bool) (ts : list string) (st : loop_state) :
  let st' := fold_left (loop_body re) ts st in
  l_yes st' = l_yes st + count_verdict Yes re ts
  /\ l_no st' = l_no st + count_verdict No re ts
  /\ l_valid st' = l_valid st + (count_verdict Yes re ts + count_verdict No re ts)
  /\ l_raw st' = (l_raw st ++ ts)%list
  /\ l_expl st' =
     (l_expl st ++ if re then filter (fun t => is_valid_response t re) ts else [])%list.
Proof.
  revert st. induction ts as [|t ts IH]; intros st; simpl.
  - unfold count_verdict. simpl. rewrite !app_nil_r.
    destruct re; rewrite ?app_nil_r; repeat split; lia.
  - destruct (IH (loop_body re st t)) as (Hy & Hn & Hv & Hr & He).
    destruct (loop_body_counts re st t) as (By & Bn & Bv & Br & Be).
    rewrite Hy, Hn, Hv, Hr, He, By, Bn, Bv, Br, Be, !count_verdict_cons.
    rewrite is_valid_classify.
    repeat split; try (destruct (classify t re); simpl; lia).
    + rewrite <- app_assoc. reflexivity.
    + rewrite <- app_assoc. f_equal.
      destruct re; simpl; [|reflexivity].
      rewrite ?is_valid_classify.
      destruct (verdict_eqb (classify t true) Invalid); reflexivity.
Qed.

(** ** Collecting the replies *)

Lemma sequential_replies_succ (srv : service) (cfg : config) (n : nat)
    (w w1 : world) :
  sent w1 = (sent w ++ [query_request cfg])%list ->
  sequential_replies srv cfg (S n) w =
  reply_of (srv (List.length (sent w)) (query_request cfg))
  :: sequential_replies srv cfg n w1.
Proof.
  intros Hs. unfold sequential_replies.
  cbn [seq map]. rewrite Nat.add_0_r. f_equal.
  rewrite <- seq_shift, map_map, Hs, length_app. simpl.
  apply map_ext. intros i. do 2 f_equal. lia.
Qed.

(** The loop makes its [n] queries one after the other and folds the
    loop body over the replies; no reply stops it. *)
Lemma sequential_loop_run (srv : service) (cfg : config) (n : nat) :
  forall (st : loop_state) (w : world),
  exists w',
    sequential_loop srv cfg n st w =
    (Ok (fold_left (loop_body (request_explanation cfg))
                   (sequential_replies srv cfg n w) st), w')
    /\ sent w' = (sent w ++ repeat (query_request cfg) n)%list.
Proof.
  induction n as [|n IH]; intros st w.
  - exists w. simpl. rewrite app_nil_r. split; reflexivity.
  - cbn [sequential_loop]. unfold bind.
    pose proof (query_claude_value srv (question cfg) (model_type cfg)
                  (request_explanation cfg) w) as Hv.
    pose proof (query_claude_sent srv (question cfg) (model_type cfg)
                  (request_explanation cfg) w) as Hs.
    destruct (query_claude srv (question cfg) (model_type cfg)
                (request_explanation cfg) w) as [[t|e] w1];
      unfold value, final in Hv, Hs; simpl in Hv, Hs; [|discriminate].
    injection Hv as ->.
    fold (query_request cfg) in Hs |- *.
    destruct (IH (loop_body (request_explanation cfg) st
                    (reply_of (srv (List.length (sent w)) (query_request cfg))))
                 w1) as (w' & Hrun & Hsent).
    exists w'. rewrite Hrun, (sequential_replies_succ srv cfg n w w1 Hs).
    split; [reflexivity|].
    rewrite Hsent, Hs, <- app_assoc. reflexivity.
Qed.

(** What [main] holds after either branch: the replies, the counts of
    their verdicts, and the explanations kept for the summary. *)
Lemma collect_run (srv : service) (cfg : config) (w : world) :
  exists t w',
    collect srv cfg w = (Ok t, w')
    /\ sent w' = (sent w ++ repeat (query_request cfg) (num_queries cfg))%list
    /\ yes_count t =
       count_verdict Yes (request_explanation cfg) (iterate (raw_responses t))
    /\ no_count t =
       count_verdict No (request_explanation cfg) (iterate (raw_responses t))
    /\ valid_responses t = yes_count t + no_count t
    /\ raw_responses t =
       (if use_async cfg then
          if (0 <? num_queries cfg)%nat
             && forallb well_formed
                  (batch_answers srv (question cfg) (model_type cfg)
                     (request_explanation cfg) (num_queries cfg) w)
          then PyList (map reply_of
                         (batch_answers srv (question cfg) (model_type cfg)
                            (request_explanation cfg) (num_queries cfg) w))
          else PyString error_or_no_data
        else PyList (sequential_replies srv cfg (num_queries cfg) w))
    /\ explanations t =
       (if use_async cfg then
          if request_explanation cfg then raw_responses t else PyList []
        else
          PyList (if request_explanation cfg
                  then filter (fun r => is_valid_response r (request_explanation cfg))
                              (iterate (raw_responses t))
                  else [])).
Proof.
  unfold collect. destruct (use_async cfg).
  - unfold bind.
    destruct (query_claude_async_run srv (question cfg) (model_type cfg)
                (request_explanation cfg) (num_queries cfg) w) as [Hv Hs].
    destruct (query_claude_async srv (question cfg) (model_type cfg)
                (request_explanation cfg) (num_queries cfg) w) as [[raw|e] w1];
      unfold value, final in Hv, Hs; simpl in Hv, Hs; [|discriminate].
    injection Hv as Hraw.
    destruct (tally_async_counts raw (request_explanation cfg)) as (Hy & Hn & Hval).
    eexists. exists w1. split; [reflexivity|].
    split; [exact Hs|].
    cbn [raw_responses tally_async explanations].
    repeat split; try assumption.
    rewrite Hval, Hy, Hn. reflexivity.
  - unfold bind.
    destruct (sequential_loop_run srv cfg (num_queries cfg) loop_init w)
      as (w1 & Hrun & Hs).
    rewrite Hrun.
    destruct (loop_fold_counts (request_explanation cfg)
                (sequential_replies srv cfg (num_queries cfg) w) loop_init)
      as (Hy & Hn & Hv & Hr & He).
    eexists. exists w1. split; [reflexivity|].
    split; [exact Hs|].
    unfold tally_of_loop. cbn [yes_count no_count valid_responses raw_responses explanations iterate].
    rewrite Hy, Hn, Hv, Hr, He. simpl.
    repeat split.
Qed.

(** ** The run as a whole *)

Lemma main_run (srv : service) (cfg : config) (w : world) :
  main srv cfg w =
  match run_queries srv cfg w with
  | (Ok p, w') => (Ok (render (fst p) (request_explanation cfg) (snd p)), w')
  | (Exc e, w') => (Exc e, w')
  end.
Proof.
  unfold main, bind. destruct (run_queries srv cfg w) as [[p|e] w']; reflexivity.
Qed.

Lemma main_final (srv : service) (cfg : config) (w : world) :
  final (main srv cfg w) = final (run_queries srv cfg w).
Proof.
  rewrite main_run. destruct (run_queries srv cfg w) as [[p|e] w']; reflexivity.
Qed.

Lemma run_queries_run (srv : service) (cfg : config) (w : world)
    (t : tally) (w1 : world) :
  collect srv cfg w = (Ok t, w1) ->
  run_queries srv cfg w =
  if request_explanation cfg && (0 <? valid_responses t)%nat then
    match summarize_explanations srv (explanations t) w1 with
    | (Ok s, w2) => (Ok (t, Some s), w2)
    | (Exc e, w2) => (Exc e, w2)
    end
  else (Ok (t, None), w1).
Proof.
  intros Hc. unfold run_queries, bind, summarize_if_needed. rewrite Hc.
  destruct (request_explanation cfg && (0 <? valid_responses t)%nat);
    [|reflexivity].
  unfold bind.
  destruct (summarize_explanations srv (explanations t) w1) as [[s|e] w2];
    reflexivity.
Qed.

(** One call of the summarizer, spelled out: the prompt is sent with the
    fixed model; an exception of the call is not caught; a response
    without a first text gives the placeholder. *)
Lemma summarize_explanations_run (srv : service) (explanations : pyseq)
    (w : world) :
  let req := mkRequest 200 "claude-3-opus-20240229" (summary_prompt explanations) in
  summarize_explanations srv explanations w =
  (match srv (List.length (sent w)) req with
   | Raises e => Exc e
   | Returns r =>
       Ok match content r with
          | Some (TextBlock t :: _) => PyStr.strip t
          | _ => error_summarizing
          end
   end,
   mkWorld (sent w ++ [req]) (stdout w)).
Proof.
  intros req. unfold summarize_explanations, bind, messages_create. fold req.
  destruct (srv (List.length (sent w)) req) as [e|[[[|[t|] bs]|]]];
    reflexivity.
Qed.

(** In sequential mode the dispatcher returns one text per query, in
    issue order, each coming from its own call. *)
Lemma sequential_dispatch (srv : service) (cfg : config) (w : world) :
  use_async cfg = false ->
  value (dispatch srv cfg w) = Ok (PyList (sequential_replies srv cfg (num_queries cfg) w))
  /\ List.length (sequential_replies srv cfg (num_queries cfg) w) = num_queries cfg
  /\ forall i, i < num_queries cfg ->
       nth i (sequential_replies srv cfg (num_queries cfg) w) EmptyString
       = reply_of (srv (List.length (sent w) + i) (query_request cfg)).
Proof.
  intros Hseq.
  destruct (collect_run srv cfg w) as (t & w1 & Hc & _ & _ & _ & _ & Hraw & _).
  rewrite Hseq in Hraw.
  split; [|split].
  - unfold dispatch, bind. rewrite Hc. simpl. rewrite Hraw. reflexivity.
  - unfold sequential_replies. rewrite length_map, length_seq. reflexivity.
  - intros i Hi. unfold sequential_replies.
    rewrite nth_indep with (d' := reply_of (srv (List.length (sent w) + 0) (query_request cfg)))
      by (rewrite length_map, length_seq; exact Hi).
    rewrite (map_nth (fun i => reply_of (srv (List.length (sent w) + i) (query_request cfg)))).
    rewrite seq_nth by exact Hi. reflexivity.
Qed.

(** ** Claims about the gateway and the classifier *)

(** C9, counterexample: the value [query_claude] returns after a failed
    call does not carry the cause.  Two calls failing for different
    reasons return the same string, and so does a successful call whose
    text happens to be that string. *)
Lemma query_claude_failure_value_has_no_cause :
  value (query_claude (scripted [Raises (APIError "timeout")])
           "Is the sky blue?" Haiku false world0)
  = value (query_claude (scripted [Raises (APIError "rate limit")])
             "Is the sky blue?" Haiku false world0)
  /\ APIError "timeout" <> APIError "rate limit"
  /\ value (query_claude (scripted [Raises (APIError "timeout")])
              "Is the sky blue?" Haiku false world0)
     = value (query_claude (scripted [text_answer "Error or no data"])
                "Is the sky blue?" Haiku false world0).
Proof.
  split; [reflexivity|]. split; [discriminate | reflexivity].
Qed.

(** C9, amended: for every input one call of [query_claude] returns a
    string and never an exception: the stripped text on success, and the
    fixed string "Error or no data" when the call raises or the response
    has no first text.  The cause of a raised exception is printed, not
    returned. *)
Theorem query_claude_always_returns (srv : service) (q : string)
    (m : model_name) (re : bool) (w : world) :
  let req := mkRequest 500 (model_map m) (make_prompt q re) in
  exists (t : string) (w' : world),
    query_claude srv q m re w = (Ok t, w')
    /\ sent w' = (sent w ++ [req])%list
    /\ match srv (List.length (sent w)) req with
       | Raises e =>
           t = error_or_no_data
           /\ stdout w' = (stdout w ++ [(api_error_prefix, e)])%list
       | Returns r =>
           stdout w' = stdout w
           /\ t = match content r with
                  | Some (TextBlock x :: _) => PyStr.strip x
                  | _ => error_or_no_data
                  end
       end.
Proof.
  intros req. rewrite query_claude_run. fold req.
  destruct (srv (List.length (sent w)) req) as [e|r];
    eexists; eexists; repeat split.
Qed.

(** The parts of a string that [strip] removes. *)
Lemma lstrip_split (x : string) :
  exists pre, x = pre ++ PyStr.lstrip x /\ whitespace_only pre = true.
Proof.
  induction x as [|c x IH].
  - exists EmptyString. split; reflexivity.
  - simpl. destruct (PyStr.isspace c) eqn:Ec.
    + destruct IH as (pre & Hx & Hp). exists (String c pre). split.
      * simpl. rewrite <- Hx. reflexivity.
      * simpl. rewrite Ec, Hp. reflexivity.
    + exists EmptyString. split; reflexivity.
Qed.

Lemma rstrip_split (y : string) :
  exists post, y = PyStr.rstrip y ++ post /\ whitespace_only post = true.
Proof.
  induction y as [|c y IH].
  - exists EmptyString. split; reflexivity.
  - destruct IH as (post & Hy & Hp). simpl.
    destruct (PyStr.rstrip y) as [|c' r] eqn:Er.
    + simpl in Hy. subst y.
      destruct (PyStr.isspace c) eqn:Ec.
      * exists (String c post). split; [reflexivity|].
        simpl. rewrite Ec, Hp. reflexivity.
      * exists post. split; [reflexivity | exact Hp].
    + exists post. split; [|exact Hp].
      simpl. simpl in Hy. rewrite <- Hy. reflexivity.
Qed.

Lemma strip_split (x : string) :
  exists pre post,
    x = pre ++ PyStr.strip x ++ post
    /\ whitespace_only pre = true /\ whitespace_only post = true.
Proof.
  destruct (lstrip_split x) as (pre & Hx & Hp).
  destruct (rstrip_split (PyStr.lstrip x)) as (post & Hy & Hq).
  exists pre, post. unfold PyStr.strip. rewrite <- Hy. auto.
Qed.

Lemma isspace_lower_char (c : ascii) :
  PyStr.isspace c = true -> PyStr.isspace (PyStr.lower_char c) = true.
Proof.
  unfold PyStr.isspace, PyStr.lower_char, PyStr.code.
  destruct c as [[] [] [] [] [] [] [] []]; vm_compute; auto.
Qed.

Lemma lower_last_space (t : string) :
  PyStr.is_space_opt (PyStr.last t) = true ->
  PyStr.is_space_opt (PyStr.last (PyStr.lower t)) = true.
Proof.
  induction t as [|c t IH]; [discriminate|].
  destruct t as [|c' t'].
  - simpl. apply isspace_lower_char.
  - intros H. apply IH in H. exact H.
Qed.

Lemma classify_trailing_space (t : string) :
  PyStr.is_space_opt (PyStr.last t) = true -> classify t false = Invalid.
Proof.
  intros H. apply lower_last_space in H. rewrite classify_terse.
  destruct (PyStr.lower t =? "yes") eqn:Ey.
  { apply String.eqb_eq in Ey. rewrite Ey in H. discriminate. }
  destruct (PyStr.lower t =? "no") eqn:En; [|reflexivity].
  apply String.eqb_eq in En. rewrite En in H. discriminate.
Qed.

Lemma classify_trimmed (t : string) (mode : bool) :
  PyStr.trimmed t -> classify t mode = spec_classify (Text t) mode.
Proof.
  intros Ht. rewrite <- (strip_fixed t Ht) at 1. apply classify_stripped.
Qed.

Lemma classify_reply (a : api_result) (mode : bool) :
  outcome_text (outcome_of a) = reply_of a
  /\ classify (reply_of a) mode = spec_classify (outcome_of a) mode.
Proof.
  destruct a as [e|[[[|[x|] bs]|]]]; simpl;
    try (split; [reflexivity | apply classify_failure]).
  split; [reflexivity|].
  rewrite <- (strip_idempotent x) at 1.
  apply (classify_stripped (PyStr.strip x) mode).
Qed.

Lemma classify_fixed_string_chars (mode : bool) :
  Forall (fun c => classify c mode = spec_classify (Text c) mode)
         (iterate (PyString error_or_no_data)).
Proof. destruct mode; repeat constructor. Qed.

Lemma verdict_cases_terse (t : string) :
  (classify t false = Yes <-> PyStr.lower t = "yes")
  /\ (classify t false = No <-> PyStr.lower t = "no")
  /\ (classify t false = Invalid
      <-> PyStr.lower t <> "yes" /\ PyStr.lower t <> "no").
Proof.
  rewrite classify_terse.
  destruct (String.eqb_spec (PyStr.lower t) "yes") as [Ey|Ey].
  - rewrite Ey. intuition congruence.
  - destruct (String.eqb_spec (PyStr.lower t) "no") as [En|En];
      intuition congruence.
Qed.

Lemma verdict_cases_explained (t : string) :
  (classify t true = Yes <-> PyStr.startswith (PyStr.lower t) "yes" = true)
  /\ (classify t true = No <-> PyStr.startswith (PyStr.lower t) "no" = true)
  /\ (classify t true = Invalid
      <-> PyStr.startswith (PyStr.lower t) "yes" = false
          /\ PyStr.startswith (PyStr.lower t) "no" = false).
Proof.
  rewrite classify_explained.
  destruct (PyStr.startswith (PyStr.lower t) "yes") eqn:Ey.
  - rewrite (startswith_yes_not_no _ Ey). intuition congruence.
  - destruct (PyStr.startswith (PyStr.lower t) "no") eqn:En;
      intuition congruence.
Qed.

(** C3: on every outcome the gateway produces, which are the only texts
    the classifier is given, the classifier is the function of the
    outcome and the mode that the trimmed lowercase comparison defines.
    A Failure is Invalid.  For a Text outcome, without explanations the
    verdict is Yes iff the trimmed lowercase text is exactly "yes", No
    iff it is exactly "no", otherwise Invalid; with explanations it is
    Yes iff the trimmed lowercase text starts with "yes", No iff it
    starts with "no", otherwise Invalid.  This holds of every reply that
    a run classifies, in either mode. *)
Theorem classify_is_trimmed_lowercase_comparison (mode : bool) :
  classify (outcome_text Failure) mode = Invalid
  /\ (forall a,
        outcome_text (outcome_of a) = reply_of a
        /\ classify (outcome_text (outcome_of a)) mode
           = spec_classify (outcome_of a) mode)
  /\ (forall t, PyStr.trimmed t ->
        let s := PyStr.lower (PyStr.strip t) in
        classify (outcome_text (Text t)) mode = spec_classify (Text t) mode
        /\ (classify t false = Yes <-> s = "yes")
        /\ (classify t false = No <-> s = "no")
        /\ (classify t false = Invalid <-> s <> "yes" /\ s <> "no")
        /\ (classify t true = Yes <-> PyStr.startswith s "yes" = true)
        /\ (classify t true = No <-> PyStr.startswith s "no" = true)
        /\ (classify t true = Invalid
            <-> PyStr.startswith s "yes" = false
                /\ PyStr.startswith s "no" = false))
  /\ (forall srv cfg w,
        exists (t : tally) (w1 : world),
          collect srv cfg w = (Ok t, w1)
          /\ Forall (fun r => classify r (request_explanation cfg)
                              = spec_classify (Text r) (request_explanation cfg))
                    (iterate (raw_responses t))).
Proof.
  split; [apply classify_failure|]. split; [|split].
  - intros a. destruct (classify_reply a mode) as [H1 H2].
    split; [exact H1|]. rewrite H1. exact H2.
  - intros t Ht s. unfold s. rewrite (strip_fixed t Ht).
    split; [apply classify_trimmed, Ht|].
    destruct (verdict_cases_terse t) as (T1 & T2 & T3).
    destruct (verdict_cases_explained t) as (E1 & E2 & E3).
    exact (conj T1 (conj T2 (conj T3 (conj E1 (conj E2 E3))))).
  - intros srv cfg w.
    destruct (collect_run srv cfg w) as (t & w1 & Hc & _ & _ & _ & _ & Hraw & _).
    exists t, w1. split; [exact Hc|]. rewrite Hraw.
    destruct (use_async cfg).
    + destruct ((0 <? num_queries cfg)%nat && _).
      * cbn [iterate]. apply Forall_forall. intros r Hin.
        apply in_map_iff in Hin as (a & <- & _).
        apply classify_trimmed, reply_of_trimmed.
      * apply classify_fixed_string_chars.
    + cbn [iterate]. apply Forall_forall. intros r Hin.
      apply in_map_iff in Hin as (i & <- & _).
      apply classify_trimmed, reply_of_trimmed.
Qed.

Lemma async_texts_are_stripped (answers : list api_result) :
  forallb well_formed answers = true ->
  Forall2 (fun a t => exists r x bs,
             a = Returns r /\ content r = Some (TextBlock x :: bs)
             /\ t = PyStr.strip x)
          answers (map reply_of answers).
Proof.
  induction answers as [|a answers IH]; intros H; [constructor|].
  simpl in H. apply andb_prop in H as [Ha Hr].
  simpl. constructor; [|apply IH, Hr].
  destruct a as [e|[[[|[x|] bs]|]]]; try discriminate.
  exists (mkResponse (Some (TextBlock x :: bs))), x, bs. repeat split.
Qed.

(** C10: the gateway returns the service's first text with its leading
    and trailing whitespace removed, and nothing else removed, in both
    modes.  The classifier performs no trimming: its verdict is the
    comparison on the lowercase text as it stands, so a text with leading
    whitespace is Invalid in both modes and one with trailing whitespace
    is Invalid without explanations, as " yes" and "yes " show, where the
    trimmed comparison would answer Yes.  Consequently the trimmed
    lowercase comparison holds on the texts the gateway hands out. *)
Theorem gateway_strips_classifier_compares_untrimmed (srv : service)
    (q : string) (m : model_name) (re : bool) (n : nat) (w : world) :
  (exists t,
     value (query_claude srv q m re w) = Ok t
     /\ match srv (List.length (sent w))
                  (mkRequest 500 (model_map m) (make_prompt q re)) with
        | Returns r =>
            match content r with
            | Some (TextBlock x :: _) => t = PyStr.strip x
            | _ => t = error_or_no_data
            end
        | Raises _ => t = error_or_no_data
        end)
  /\ (forall ts,
        value (query_claude_async srv q m re n w) = Ok (PyList ts) ->
        Forall2 (fun a t => exists r x bs,
                   a = Returns r /\ content r = Some (TextBlock x :: bs)
                   /\ t = PyStr.strip x)
                (batch_answers srv q m re n w) ts)
  /\ (forall x, exists pre post,
        x = pre ++ PyStr.strip x ++ post
        /\ whitespace_only pre = true /\ whitespace_only post = true
        /\ PyStr.trimmed (PyStr.strip x))
  /\ (forall t,
        classify t false
        = (if PyStr.lower t =? "yes" then Yes
           else if PyStr.lower t =? "no" then No
           else Invalid)
        /\ classify t true
           = (if PyStr.startswith (PyStr.lower t) "yes" then Yes
              else if PyStr.startswith (PyStr.lower t) "no" then No
              else Invalid))
  /\ (forall t mode,
        is_valid_response t mode = negb (verdict_eqb (classify t mode) Invalid))
  /\ (forall t mode, PyStr.is_space_opt (PyStr.head t) = true ->
        classify t mode = Invalid)
  /\ (forall t, PyStr.is_space_opt (PyStr.last t) = true ->
        classify t false = Invalid)
  /\ (classify " yes" false = Invalid /\ classify " yes" true = Invalid
      /\ classify "yes " false = Invalid
      /\ spec_classify (Text " yes") false = Yes
      /\ spec_classify (Text "yes ") false = Yes)
  /\ (forall t mode,
        value (query_claude srv q m re w) = Ok t ->
        classify t mode = spec_classify (Text t) mode)
  /\ (forall ts mode,
        value (query_claude_async srv q m re n w) = Ok (PyList ts) ->
        Forall (fun t => classify t mode = spec_classify (Text t) mode) ts).
Proof.
  split; [|split; [|split; [|split; [|split; [|split; [|split; [|split; [|split]]]]]]]].
  - rewrite query_claude_value. eexists. split; [reflexivity|].
    destruct (srv _ _) as [e|[[[|[x|] bs]|]]]; reflexivity.
  - intros ts H. rewrite query_claude_async_value in H.
    destruct (0 <? n)%nat; [|discriminate]. simpl in H.
    destruct (forallb well_formed (batch_answers srv q m re n w)) eqn:F;
      [|discriminate].
    injection H as <-. apply async_texts_are_stripped, F.
  - intros x. destruct (strip_split x) as (pre & post & Hx & Hp & Hq).
    exists pre, post. repeat split; try assumption; apply strip_trimmed.
  - intros t. split; [apply classify_terse | apply classify_explained].
  - intros t mode. apply is_valid_classify.
  - intros t mode. apply classify_leading_space.
  - apply classify_trailing_space.
  - repeat split.
  - intros t mode H. rewrite query_claude_value in H. injection H as <-.
    apply classify_trimmed, reply_of_trimmed.
  - intros ts mode H. rewrite query_claude_async_value in H.
    destruct ((0 <? n)%nat && _); [|discriminate].
    injection H as <-. apply Forall_forall. intros t Hin.
    apply in_map_iff in Hin as (a & <- & _).
    apply classify_trimmed, reply_of_trimmed.
Qed.

(** ** Claims about the batch *)

(** C1, failing input: three queries, the second call raises.  In
    parallel mode the dispatcher returns the single string
    "Error or no data", which [main] then walks through as sixteen
    one-character replies: the answers "yes" and "no" of the two
    successful calls are lost.  In sequential mode the same service gives
    three outcomes, each in its place. *)
Theorem parallel_dispatch_aborted_by_one_failure :
  value (dispatch one_failure_service (one_failure_run true) world0)
  = Ok (PyString "Error or no data")
  /\ List.length (iterate (PyString "Error or no data")) = 16
  /\ num_queries (one_failure_run true) = 3
  /\ value (dispatch one_failure_service (one_failure_run false) world0)
     = Ok (PyList ["yes"; "Error or no data"; "no"]).
Proof. repeat split. Qed.

(** C7, failing input: the same run.  The counts taken in parallel mode
    are over the sixteen characters of "Error or no data": no Yes, no No
    and sixteen Invalid, for a sample size of three. *)
Theorem parallel_counts_miss_sample_size :
  exists (t : tally) (w : world),
    collect one_failure_service (one_failure_run true) world0 = (Ok t, w)
    /\ yes_count t = 0
    /\ no_count t = 0
    /\ count_verdict Invalid false (iterate (raw_responses t)) = 16
    /\ num_queries (one_failure_run true) = 3.
Proof. eexists. eexists. repeat split. Qed.

(** C6, failing input: two queries with explanations, answered
    "yes, because X" and "maybe".  In parallel mode the prompt sent to
    the summarizer joins both texts, the Invalid "maybe" included; in
    sequential mode it holds the accepted text only. *)
Theorem parallel_summary_prompt_has_invalid_text :
  classify "maybe" true = Invalid
  /\ nth_error (sent (final (main mixed_service (mixed_run true) world0))) 2
     = Some (mkRequest 200 "claude-3-opus-20240229"
               (summary_header ++ "yes, because X" ++ PyStr.nl ++ "maybe"))
  /\ nth_error (sent (final (main mixed_service (mixed_run false) world0))) 2
     = Some (mkRequest 200 "claude-3-opus-20240229"
               (summary_header ++ "yes, because X")).
Proof.
  rewrite !main_final. repeat split.
Qed.

(** C2, failing input: one accepted explanation, and the summarizing call
    raises.  [summarize_explanations] lets the exception through, and so
    does [main]: no report is produced. *)
Theorem summarizer_exception_escapes :
  value (summarize_explanations lost_summary_service (PyList ["yes, because X"])
           (mkWorld [query_request lost_summary_run] []))
  = Exc (APIError "connection reset")
  /\ value (main lost_summary_service lost_summary_run world0)
     = Exc (APIError "connection reset").
Proof.
  split; [reflexivity|].
  rewrite main_run. reflexivity.
Qed.

(** ** The distribution function of the posterior *)

Section BetaDistribution.

Local Open Scope R_scope.

Lemma binom_tail_step (n a : nat) (x : R) :
  binom_tail (S n) (S a) x =
  x * binom_tail n a x + (1 - x) * binom_tail n (S a) x.
Proof. reflexivity. Qed.

Lemma binom_tail_all (n : nat) (x : R) : binom_tail n 0 x = 1.
Proof. destruct n; reflexivity. Qed.

Lemma binom_tail_continuity (n : nat) :
  forall a, continuity (binom_tail n a).
Proof.
  induction n as [|n IH]; intros a.
  - destruct a; simpl.
    + apply (continuity_const (fun _ => 1)). intros x y. reflexivity.
    + apply (continuity_const (fun _ => 0)). intros x y. reflexivity.
  - destruct a as [|a].
    + apply (continuity_const (fun _ => 1)). intros x y. reflexivity.
    + change (continuity ((id * binom_tail n a)
                          + ((fct_cte 1 - id) * binom_tail n (S a)))%F).
      apply continuity_plus; apply continuity_mult; auto.
      * apply derivable_continuous, derivable_id.
      * apply continuity_minus.
        -- apply continuity_const. intros x y. reflexivity.
        -- apply derivable_continuous, derivable_id.
Qed.

Lemma binom_tail_zero_above (n : nat) :
  forall a x, (n < a)%nat -> binom_tail n a x = 0.
Proof.
  induction n as [|n IH]; intros [|a] x H; simpl; try lia; auto.
  rewrite !IH by lia. ring.
Qed.

Lemma binom_tail_at_0 (n : nat) : forall a, binom_tail n (S a) 0 = 0.
Proof.
  induction n as [|n IH]; intros a; simpl; auto.
  rewrite IH. ring.
Qed.

Lemma binom_tail_at_1 (n : nat) :
  forall a, (a <= n)%nat -> binom_tail n a 1 = 1.
Proof.
  induction n as [|n IH]; intros [|a] H; simpl; try lia; auto.
  rewrite IH by lia. ring.
Qed.

Lemma binom_tail_range (n : nat) :
  forall a x, 0 <= x <= 1 -> 0 <= binom_tail n a x <= 1.
Proof.
  induction n as [|n IH]; intros [|a] x Hx; simpl; try lra.
  pose proof (IH a x Hx). pose proof (IH (S a) x Hx). nra.
Qed.

(** Asking for more successes cannot raise the probability. *)
Lemma binom_tail_antitone (n : nat) :
  forall a x, 0 <= x <= 1 -> binom_tail n (S a) x <= binom_tail n a x.
Proof.
  induction n as [|n IH]; intros a x Hx.
  - destruct a; simpl; lra.
  - destruct a as [|a].
    + pose proof (binom_tail_range (S n) 1 x Hx). simpl in *. lra.
    + pose proof (IH a x Hx). pose proof (IH (S a) x Hx).
      rewrite !binom_tail_step. nra.
Qed.

(** The tail grows strictly with the success probability. *)
Lemma binom_tail_increasing (n : nat) :
  forall a x y, (1 <= a <= n)%nat -> 0 <= x -> x < y -> y <= 1 ->
  binom_tail n a x < binom_tail n a y.
Proof.
  induction n as [|n IH]; intros a x y Ha Hx Hxy Hy; [lia|].
  destruct a as [|a]; [lia|].
  rewrite !binom_tail_step.
  assert (HB : binom_tail n (S a) x <= binom_tail n (S a) y).
  { destruct (le_lt_dec (S a) n) as [Hle|Hgt].
    - left. apply IH; auto; lia.
    - rewrite !binom_tail_zero_above by lia. lra. }
  pose proof (binom_tail_range n (S a) x ltac:(lra)) as RBx.
  pose proof (binom_tail_range n (S a) y ltac:(lra)) as RBy.
  destruct a as [|a].
  - rewrite !binom_tail_all.
    destruct n as [|n].
    + simpl. lra.
    + assert (binom_tail (S n) 1 x < binom_tail (S n) 1 y)
        by (apply IH; auto; lia).
      nra.
  - assert (HA : binom_tail n (S a) x < binom_tail n (S a) y)
      by (apply IH; auto; lia).
    pose proof (binom_tail_antitone n (S a) x ltac:(lra)).
    nra.
Qed.

(** Two familiar cases: Beta(1, 1) is uniform, and Beta(2, 1) has
    distribution function [x * x]. *)
Example beta_cdf_uniform (x : R) : beta_cdf 1 1 x = x.
Proof. unfold beta_cdf. simpl. ring. Qed.

Example beta_cdf_2_1 (x : R) : beta_cdf 2 1 x = x * x.
Proof. unfold beta_cdf. simpl. ring. Qed.

Lemma beta_cdf_increasing (a b : nat) (x y : R) :
  (1 <= a)%nat -> (1 <= b)%nat -> 0 <= x -> x < y -> y <= 1 ->
  beta_cdf a b x < beta_cdf a b y.
Proof.
  intros Ha Hb Hx Hxy Hy. unfold beta_cdf.
  apply binom_tail_increasing; auto. lia.
Qed.

Lemma beta_cdf_at_0 (a b : nat) : (1 <= a)%nat -> beta_cdf a b 0 = 0.
Proof.
  intros Ha. unfold beta_cdf. destruct a as [|a]; [lia|].
  apply binom_tail_at_0.
Qed.

Lemma beta_cdf_at_1 (a b : nat) : (1 <= b)%nat -> beta_cdf a b 1 = 1.
Proof.
  intros Hb. unfold beta_cdf. apply binom_tail_at_1. lia.
Qed.

(** Every level strictly between 0 and 1 is reached, at one point only. *)
Lemma percentile_exists (q : R) (a b : nat) :
  0 < q < 1 -> (1 <= a)%nat -> (1 <= b)%nat ->
  exists x, is_percentile q a b x.
Proof.
  intros Hq Ha Hb.
  destruct (IVT (fun x => beta_cdf a b x - q) 0 1) as [z [Hz Hfz]].
  - apply (continuity_minus (beta_cdf a b) (fct_cte q)).
    + apply binom_tail_continuity.
    + apply continuity_const. intros x y. reflexivity.
  - lra.
  - rewrite beta_cdf_at_0 by exact Ha. lra.
  - rewrite beta_cdf_at_1 by exact Hb. lra.
  - exists z. split; [exact Hz | lra].
Qed.

Lemma percentile_unique (q : R) (a b : nat) (x y : R) :
  (1 <= a)%nat -> (1 <= b)%nat ->
  is_percentile q a b x -> is_percentile q a b y -> x = y.
Proof.
  intros Ha Hb [Hx Ex] [Hy Ey].
  destruct (Rtotal_order x y) as [L|[E|G]]; [|exact E|].
  - pose proof (beta_cdf_increasing a b x y Ha Hb ltac:(lra) L ltac:(lra)). lra.
  - pose proof (beta_cdf_increasing a b y x Ha Hb ltac:(lra) G ltac:(lra)). lra.
Qed.

Lemma beta_ppf_percentile (q : R) (a b : nat) :
  0 < q < 1 -> (1 <= a)%nat -> (1 <= b)%nat ->
  is_percentile q a b (beta_ppf q a b).
Proof.
  intros Hq Ha Hb. unfold beta_ppf.
  apply epsilon_spec, percentile_exists; assumption.
Qed.

Lemma percentile_inside (q : R) (a b : nat) (x : R) :
  0 < q < 1 -> (1 <= a)%nat -> (1 <= b)%nat ->
  is_percentile q a b x -> 0 < x < 1.
Proof.
  intros Hq Ha Hb [Hx Ex].
  assert (x <> 0).
  { intros ->. rewrite beta_cdf_at_0 in Ex by exact Ha. lra. }
  assert (x <> 1).
  { intros ->. rewrite beta_cdf_at_1 in Ex by exact Hb. lra. }
  lra.
Qed.

Lemma percentile_ordered (q1 q2 : R) (a b : nat) (x1 x2 : R) :
  (1 <= a)%nat -> (1 <= b)%nat -> q1 < q2 ->
  is_percentile q1 a b x1 -> is_percentile q2 a b x2 -> x1 < x2.
Proof.
  intros Ha Hb Hq [H1 E1] [H2 E2].
  destruct (Rtotal_order x1 x2) as [L|[E|G]]; [exact L| |].
  - subst x2. lra.
  - pose proof (beta_cdf_increasing a b x2 x1 Ha Hb ltac:(lra) G ltac:(lra)). lra.
Qed.

(** The two ends of [beta.interval(0.95, a, b)]. *)
Lemma beta_interval_95 (a b : nat) :
  beta_interval (95 / 100) a b
  = (beta_ppf (25 / 1000) a b, beta_ppf (975 / 1000) a b).
Proof.
  unfold beta_interval. f_equal; f_equal; lra.
Qed.

End BetaDistribution.

(** ** The report *)

Lemma render_valid (t : tally) (re : bool) (s : option string) :
  0 < valid_responses t ->
  render t re s =
  Success (mkReport (valid_responses t)
             (INR (yes_count t) / INR (valid_responses t) * 100)%R
             (beta_ppf (25 / 1000) (yes_count t + 1) (no_count t + 1) * 100)%R
             (beta_ppf (975 / 1000) (yes_count t + 1) (no_count t + 1) * 100)%R
             (if re then s else None)
             (raw_responses t)).
Proof.
  intros Hv. unfold render.
  apply Nat.ltb_lt in Hv. rewrite Hv, beta_interval_95. reflexivity.
Qed.

Lemma render_none (t : tally) (re : bool) (s : option string) :
  valid_responses t = 0 -> render t re s = Error no_valid_responses.
Proof. intros Hv. unfold render. rewrite Hv. reflexivity. Qed.

(** The three ways a run ends, once the replies are collected. *)
Lemma main_outcome (srv : service) (cfg : config) (w : world)
    (t : tally) (w1 : world) :
  collect srv cfg w = (Ok t, w1) ->
  main srv cfg w =
  if (0 <? valid_responses t)%nat then
    if request_explanation cfg then
      match summarize_explanations srv (explanations t) w1 with
      | (Ok s, w2) => (Ok (render t true (Some s)), w2)
      | (Exc e, w2) => (Exc e, w2)
      end
    else (Ok (render t false None), w1)
  else (Ok (Error no_valid_responses), w1).
Proof.
  intros Hc. rewrite main_run, (run_queries_run srv cfg w t w1 Hc).
  destruct (0 <? valid_responses t)%nat eqn:Hv.
  - destruct (request_explanation cfg); simpl; [|reflexivity].
    destruct (summarize_explanations srv (explanations t) w1) as [[s|e] w2];
      reflexivity.
  - rewrite andb_false_r. simpl.
    rewrite render_none; [reflexivity|].
    apply Nat.ltb_ge in Hv. lia.
Qed.

(** C4: with at least one Yes or No the report shows the share of Yes
    among the Yes and No replies, as a percentage; with none, no estimate
    and no interval are computed and the run shows the message that no
    valid responses were received.  (A run with valid replies ends
    without a report only when the summarizer, which [main] calls before
    the report, raises.) *)
Theorem estimate_or_no_valid_responses (srv : service) (cfg : config)
    (w : world) :
  exists (t : tally) (w1 : world),
    collect srv cfg w = (Ok t, w1)
    /\ valid_responses t = yes_count t + no_count t
    /\ (yes_count t + no_count t = 0 ->
        main srv cfg w = (Ok (Error no_valid_responses), w1))
    /\ (0 < yes_count t + no_count t ->
        match main srv cfg w with
        | (Ok (Success r), _) =>
            rep_valid r = yes_count t + no_count t
            /\ rep_yes_percentage r =
               (INR (yes_count t) / INR (yes_count t + no_count t) * 100)%R
        | (Ok (Error _), _) => False
        | (Exc e, _) =>
            request_explanation cfg = true
            /\ value (summarize_explanations srv (explanations t) w1) = Exc e
        end).
Proof.
  destruct (collect_run srv cfg w) as (t & w1 & Hc & _ & _ & _ & Hv & _).
  exists t, w1. split; [exact Hc|]. split; [exact Hv|].
  rewrite (main_outcome srv cfg w t w1 Hc). split.
  - intros H0. rewrite Hv, H0. reflexivity.
  - intros Hpos.
    assert (Hlt : (0 <? valid_responses t)%nat = true)
      by (apply Nat.ltb_lt; lia).
    rewrite Hlt.
    destruct (request_explanation cfg).
    + destruct (summarize_explanations srv (explanations t) w1) as [[s|e] w2].
      * rewrite render_valid by lia. simpl. rewrite Hv. split; reflexivity.
      * split; reflexivity.
    + rewrite render_valid by lia. simpl. rewrite Hv. split; reflexivity.
Qed.

(** C5: with at least one Yes or No the two ends shown are, as
    percentages, the 2.5th and the 97.5th percentile of the Beta
    distribution with parameters [yes_count + 1] and [no_count + 1]: each
    is the one point of [[0, 1]] where the distribution function takes
    that level.  Both parameters are at least 1 whatever the counts, zero
    included. *)
Theorem interval_is_beta_percentiles (srv : service) (cfg : config)
    (w : world) :
  exists (t : tally) (w1 : world),
    collect srv cfg w = (Ok t, w1)
    /\ 1 <= yes_count t + 1
    /\ 1 <= no_count t + 1
    /\ (0 < yes_count t + no_count t ->
        match main srv cfg w with
        | (Ok (Success r), _) =>
            let a := yes_count t + 1 in
            let b := no_count t + 1 in
            is_percentile (25 / 1000) a b (rep_ci_low r / 100)
            /\ is_percentile (975 / 1000) a b (rep_ci_high r / 100)
            /\ (forall x, is_percentile (25 / 1000) a b x ->
                          (x * 100)%R = rep_ci_low r)
            /\ (forall x, is_percentile (975 / 1000) a b x ->
                          (x * 100)%R = rep_ci_high r)
        | (Ok (Error _), _) => False
        | (Exc e, _) =>
            request_explanation cfg = true
            /\ value (summarize_explanations srv (explanations t) w1) = Exc e
        end).
Proof.
  destruct (collect_run srv cfg w) as (t & w1 & Hc & _ & _ & _ & Hv & _).
  exists t, w1. split; [exact Hc|]. split; [lia|]. split; [lia|].
  rewrite (main_outcome srv cfg w t w1 Hc).
  intros Hpos.
  assert (Hlt : (0 <? valid_responses t)%nat = true)
    by (apply Nat.ltb_lt; lia).
  rewrite Hlt.
  assert (Hlow : is_percentile (25 / 1000) (yes_count t + 1) (no_count t + 1)
                   (beta_ppf (25 / 1000) (yes_count t + 1) (no_count t + 1)))
    by (apply beta_ppf_percentile; [lra | lia | lia]).
  assert (Hhigh : is_percentile (975 / 1000) (yes_count t + 1) (no_count t + 1)
                    (beta_ppf (975 / 1000) (yes_count t + 1) (no_count t + 1)))
    by (apply beta_ppf_percentile; [lra | lia | lia]).
  assert (Hrep : forall re s,
    match render t re s with
    | Success r =>
        is_percentile (25 / 1000) (yes_count t + 1) (no_count t + 1)
          (rep_ci_low r / 100)
        /\ is_percentile (975 / 1000) (yes_count t + 1) (no_count t + 1)
             (rep_ci_high r / 100)
        /\ (forall x, is_percentile (25 / 1000) (yes_count t + 1) (no_count t + 1) x ->
                      (x * 100)%R = rep_ci_low r)
        /\ (forall x, is_percentile (975 / 1000) (yes_count t + 1) (no_count t + 1) x ->
                      (x * 100)%R = rep_ci_high r)
    | Error _ => False
    end).
  { intros re s. rewrite render_valid by lia. cbn [rep_ci_low rep_ci_high].
    replace (beta_ppf (25 / 1000) (yes_count t + 1) (no_count t + 1) * 100 / 100)%R
      with (beta_ppf (25 / 1000) (yes_count t + 1) (no_count t + 1)) by lra.
    replace (beta_ppf (975 / 1000) (yes_count t + 1) (no_count t + 1) * 100 / 100)%R
      with (beta_ppf (975 / 1000) (yes_count t + 1) (no_count t + 1)) by lra.
    split; [exact Hlow|]. split; [exact Hhigh|]. split; intros x Hx; f_equal.
    - apply (percentile_unique (25 / 1000) (yes_count t + 1) (no_count t + 1));
        auto; lia.
    - apply (percentile_unique (975 / 1000) (yes_count t + 1) (no_count t + 1));
        auto; lia. }
  destruct (request_explanation cfg).
  - destruct (summarize_explanations srv (explanations t) w1) as [[s|e] w2].
    + apply Hrep.
    + split; reflexivity.
  - apply Hrep.
Qed.

(** ** The estimate inside the interval *)

Section Mass.
Local Open Scope R_scope.

Lemma falling_succ (a : nat) : forall n, falling n (S a) = (falling n a * (n - a))%nat.
Proof.
  induction a as [|a IH]; intros n.
  - simpl. lia.
  - change (falling n (S (S a))) with (n * falling (n - 1) (S a))%nat.
    rewrite IH. change (falling n (S a)) with (n * falling (n - 1) a)%nat.
    replace (n - 1 - a)%nat with (n - S a)%nat by lia. lia.
Qed.

Lemma falling_step (n a : nat) : falling (S n) (S a) = (S n * falling n a)%nat.
Proof. simpl. rewrite Nat.sub_0_r. reflexivity. Qed.

Lemma binom_mass_step (n a : nat) (x : R) :
  binom_mass (S n) (S a) x = x * binom_mass n a x + (1 - x) * binom_mass n (S a) x.
Proof. unfold binom_mass. rewrite !binom_tail_step. ring. Qed.

Lemma binom_mass_none (n : nat) (x : R) :
  binom_mass (S n) 0 x = (1 - x) * binom_mass n 0 x.
Proof. unfold binom_mass. rewrite binom_tail_step, !binom_tail_all. ring. Qed.

Lemma binom_mass_above (n a : nat) (x : R) : (n < a)%nat -> binom_mass n a x = 0.
Proof.
  intros H. unfold binom_mass. rewrite !binom_tail_zero_above by lia. ring.
Qed.

Lemma binom_mass_closed (n : nat) :
  forall a x, (a <= n)%nat ->
  INR (fact a) * binom_mass n a x = INR (falling n a) * x ^ a * (1 - x) ^ (n - a).
Proof.
  induction n as [|n IH]; intros a x Ha.
  - replace a with 0%nat by lia. unfold binom_mass. simpl. ring.
  - destruct a as [|a].
    + rewrite binom_mass_none.
      specialize (IH 0%nat x ltac:(lia)).
      replace (n - 0)%nat with n in IH by lia.
      replace (S n - 0)%nat with (S n) by lia.
      change (falling n 0) with 1%nat in IH.
      change (falling (S n) 0) with 1%nat.
      change (fact 0) with 1%nat in *.
      rewrite <- tech_pow_Rmult.
      replace (INR 1 * ((1 - x) * binom_mass n 0 x))
        with ((1 - x) * (INR 1 * binom_mass n 0 x)) by ring.
      rewrite IH. ring.
    + rewrite binom_mass_step, falling_step.
      change (fact (S a)) with ((S a) * fact a)%nat.
      rewrite !mult_INR.
      specialize (IH a x ltac:(lia)) as IHa.
      replace (S n - S a)%nat with (n - a)%nat by lia.
      destruct (Nat.eq_dec a n) as [->|Hne].
      * rewrite (binom_mass_above n (S n)) by lia.
        replace (INR (S n) * INR (fact n) * (x * binom_mass n n x + (1 - x) * 0))
          with (INR (S n) * x * (INR (fact n) * binom_mass n n x)) by ring.
        rewrite IHa, <- tech_pow_Rmult. ring.
      * specialize (IH (S a) x ltac:(lia)) as IHb.
        rewrite falling_succ, mult_INR, minus_INR in IHb by lia.
        change (fact (S a)) with ((S a) * fact a)%nat in IHb.
        rewrite mult_INR in IHb.
        replace (n - a)%nat with (S (n - S a))%nat in IHa |- * by lia.
        rewrite <- !tech_pow_Rmult in *.
        rewrite !S_INR in *.
        set (P := (1 - x) ^ (n - S a)) in *.
        set (X := x ^ a) in *.
        set (F := INR (falling n a)) in *.
        set (A := INR (fact a)) in *.
        set (M := binom_mass n a x) in *.
        set (M' := binom_mass n (S a) x) in *.
        replace ((INR a + 1) * A * (x * M + (1 - x) * M'))
          with ((INR a + 1) * x * (A * M) + (1 - x) * ((INR a + 1) * A * M')) by ring.
        rewrite IHa, IHb. ring.
Qed.
End Mass.

Lemma big_spec (k : nat) : BigN.to_Z (big k) = Z.of_nat k.
Proof. unfold big. rewrite BigN.spec_of_N. apply nat_N_Z. Qed.

Lemma mul_pow_spec (b : bigN) (e : nat) :
  forall acc, BigN.to_Z (mul_pow b e acc) = (BigN.to_Z b ^ Z.of_nat e * BigN.to_Z acc)%Z.
Proof.
  induction e as [|e IH]; intros acc.
  - cbn [mul_pow]. change (Z.of_nat 0) with 0%Z. rewrite Z.pow_0_r. ring.
  - cbn [mul_pow]. rewrite IH, BigN.spec_mul, Nat2Z.inj_succ, Z.pow_succ_r by lia. ring.
Qed.

Lemma mul_falling_spec (a : nat) :
  forall n acc, BigN.to_Z (mul_falling n a acc) = (Z.of_nat (falling n a) * BigN.to_Z acc)%Z.
Proof.
  induction a as [|a IH]; intros n acc.
  - cbn [mul_falling falling]. change (Z.of_nat 1) with 1%Z. ring.
  - cbn [mul_falling falling]. rewrite IH, BigN.spec_mul, BigN.spec_of_N, nat_N_Z, Nat2Z.inj_mul. ring.
Qed.

Lemma mul_fact_spec (a : nat) :
  forall acc, BigN.to_Z (mul_fact a acc) = (Z.of_nat (fact a) * BigN.to_Z acc)%Z.
Proof.
  induction a as [|a IH]; intros acc.
  - cbn [mul_fact fact]. change (Z.of_nat 1) with 1%Z. ring.
  - cbn [mul_fact]. rewrite IH, BigN.spec_mul, BigN.spec_of_N, nat_N_Z.
    change (fact (S a)) with (S a * fact a)%nat. rewrite Nat2Z.inj_mul. ring.
Qed.

Lemma mass_check_upto_sound (cap y m : nat) :
  mass_check_upto cap = true ->
  1 <= y -> 1 <= m -> y + m <= cap -> mass_check y m = true.
Proof.
  unfold mass_check_upto. intros H Hy Hm Hs.
  rewrite forallb_forall in H. apply (H (y, m)).
  unfold count_pairs. apply in_flat_map. exists y. split.
  - apply in_seq. lia.
  - apply in_map_iff. exists m. split; [reflexivity|]. apply in_seq. lia.
Qed.

(** The test succeeds for every pair of positive counts whose sum is at
    most 100. *)
Lemma mass_check_upto_100 : mass_check_upto 100 = true.
Proof. vm_compute. reflexivity. Qed.

Lemma mass_check_100 (y m : nat) :
  1 <= y -> 1 <= m -> y + m <= 100 -> mass_check y m = true.
Proof.
  exact (mass_check_upto_sound 100 y m mass_check_upto_100).
Qed.

Section MassBounds.
Local Open Scope R_scope.

Lemma IZR_of_nat_pow (k e : nat) : IZR (Z.of_nat k ^ Z.of_nat e) = INR k ^ e.
Proof. rewrite <- pow_IZR, <- INR_IZR_INZ. reflexivity. Qed.

Lemma mass_check_sound (y m : nat) :
  mass_check y m = true ->
  let n := (y + m + 1)%nat in
  let K := INR (falling n y) * INR y ^ y * INR m ^ m * 40 in
  let D := INR (fact y) * INR (y + m) ^ n in
  INR (y + 1) * D < INR ((n - y) * y) * K /\ D < INR m * K.
Proof.
  intros H n K D. unfold mass_check in H.
  apply andb_prop in H as [H1 H2].
  rewrite BigN.spec_ltb in H1, H2. apply Z.ltb_lt in H1, H2.
  repeat rewrite ?BigN.spec_mul, ?mul_pow_spec, ?mul_falling_spec,
    ?mul_fact_spec, ?big_spec in H1.
  repeat rewrite ?BigN.spec_mul, ?mul_pow_spec, ?mul_falling_spec,
    ?mul_fact_spec, ?big_spec in H2.
  fold n in H1, H2.
  apply IZR_lt in H1. apply IZR_lt in H2.
  repeat rewrite ?mult_IZR, ?IZR_of_nat_pow, <- ?INR_IZR_INZ in H1.
  repeat rewrite ?mult_IZR, ?IZR_of_nat_pow, <- ?INR_IZR_INZ in H2.
  replace (INR 40) with 40 in H1, H2 by (rewrite INR_IZR_INZ; reflexivity).
  replace (INR 1) with 1 in H1, H2 by reflexivity.
  unfold K, D. split; nra.
Qed.
End MassBounds.

Section MassAtShare.
Local Open Scope R_scope.

Lemma ratio_pow (u d : R) (a : nat) : d <> 0 -> (u / d) ^ a * d ^ a = u ^ a.
Proof.
  intros Hd. rewrite <- Rpow_mult_distr. f_equal. field. exact Hd.
Qed.

Lemma binom_mass_at_ratio (n a y m : nat) :
  (a <= n)%nat -> (0 < y + m)%nat ->
  INR (fact a) * INR (y + m) ^ n * binom_mass n a (INR y / INR (y + m))
  = INR (falling n a) * INR y ^ a * INR m ^ (n - a).
Proof.
  intros Ha Hd.
  assert (Hd0 : INR (y + m) <> 0) by (apply not_0_INR; lia).
  assert (Hx : 1 - INR y / INR (y + m) = INR m / INR (y + m))
    by (rewrite plus_INR in *; field; exact Hd0).
  replace n with (a + (n - a))%nat at 1 by lia.
  rewrite pow_add.
  replace (INR (fact a) * (INR (y + m) ^ a * INR (y + m) ^ (n - a))
           * binom_mass n a (INR y / INR (y + m)))
    with (INR (fact a) * binom_mass n a (INR y / INR (y + m))
          * INR (y + m) ^ a * INR (y + m) ^ (n - a)) by ring.
  rewrite (binom_mass_closed n a _ Ha), Hx.
  rewrite <- (ratio_pow (INR y) (INR (y + m)) a Hd0).
  rewrite <- (ratio_pow (INR m) (INR (y + m)) (n - a) Hd0).
  ring.
Qed.

Lemma mass_above_fortieth (y m : nat) :
  (1 <= y)%nat -> (1 <= m)%nat -> mass_check y m = true ->
  let n := (y + m + 1)%nat in
  let x := INR y / INR (y + m) in
  1 / 40 < binom_mass n (S y) x /\ 1 / 40 < binom_mass n y x.
Proof.
  intros Hy Hm Hc n x.
  destruct (mass_check_sound y m Hc) as [H1 H2]. fold n in H1, H2.
  pose proof (binom_mass_at_ratio n (S y) y m ltac:(lia) ltac:(lia)) as E1.
  pose proof (binom_mass_at_ratio n y y m ltac:(lia) ltac:(lia)) as E2.
  fold x in E1, E2.
  replace (n - S y)%nat with m in E1 by lia.
  replace (n - y)%nat with (S m) in E2 by lia.
  replace (n - y)%nat with (S m) in H1 by lia.
  rewrite falling_succ, mult_INR in E1.
  replace (n - y)%nat with (S m) in E1 by lia.
  change (fact (S y)) with (S y * fact y)%nat in E1.
  rewrite !mult_INR in E1. rewrite mult_INR in H1.
  replace (y + 1)%nat with (S y) in H1 by lia.
  rewrite <- !tech_pow_Rmult in E1, E2.
  assert (HD : 0 < INR (fact y) * INR (y + m) ^ n).
  { apply Rmult_lt_0_compat; [apply INR_fact_lt_0|].
    apply pow_lt, lt_0_INR. lia. }
  assert (HS : 0 < INR (S y)) by (apply lt_0_INR; lia).
  set (D := INR (fact y) * INR (y + m) ^ n) in *.
  set (F := INR (falling n y)) in *.
  set (Yp := INR y ^ y) in *.
  set (Mp := INR m ^ m) in *.
  set (M1 := binom_mass n (S y) x) in *.
  set (M2 := binom_mass n y x) in *.
  split.
  - assert (E : INR (S y) * D * M1 = F * INR (S m) * (INR y * Yp) * Mp).
    { rewrite <- E1. unfold D. ring. }
    assert (INR (S y) * D < 40 * (INR (S y) * D * M1)) by (rewrite E; nra).
    assert (0 < INR (S y) * D) by (apply Rmult_lt_0_compat; assumption).
    nra.
  - assert (D < 40 * (D * M2)) by (rewrite E2; nra).
    nra.
Qed.

Lemma beta_cdf_at_estimate (y m : nat) :
  (1 <= y)%nat -> (1 <= m)%nat -> (y + m <= 100)%nat ->
  25 / 1000 < beta_cdf (y + 1) (m + 1) (INR y / INR (y + m)) < 975 / 1000.
Proof.
  intros Hy Hm Hs.
  destruct (mass_above_fortieth y m Hy Hm (mass_check_100 y m Hy Hm Hs))
    as [H1 H2].
  unfold beta_cdf.
  replace (y + 1 + (m + 1) - 1)%nat with (y + m + 1)%nat by lia.
  replace (y + 1)%nat with (S y) by lia.
  unfold binom_mass in H1, H2.
  assert (Hx : 0 <= INR y / INR (y + m) <= 1).
  { assert (0 < INR (y + m)) by (apply lt_0_INR; lia).
    assert (0 <= INR y) by apply pos_INR.
    assert (INR y <= INR (y + m)) by (apply le_INR; lia).
    split.
    - apply Rmult_le_pos; [assumption|]. left. apply Rinv_0_lt_compat. assumption.
    - apply (Rmult_le_reg_r (INR (y + m))); [assumption|].
      unfold Rdiv. rewrite Rmult_assoc, Rinv_l by lra. lra. }
  pose proof (binom_tail_range (y + m + 1) (S (S y)) _ Hx).
  pose proof (binom_tail_range (y + m + 1) y _ Hx).
  lra.
Qed.
End MassAtShare.

(** ** The bounds of the report *)

Section ReportBounds.

Local Open Scope R_scope.

Lemma percentile_below (q : R) (a b : nat) (p x : R) :
  (1 <= a)%nat -> (1 <= b)%nat -> is_percentile q a b p ->
  0 <= x <= 1 -> q < beta_cdf a b x -> p < x.
Proof.
  intros Ha Hb [Hp Ep] Hx Hq.
  destruct (Rtotal_order p x) as [L|[E|G]]; [exact L| |].
  - subst x. lra.
  - pose proof (beta_cdf_increasing a b x p Ha Hb ltac:(lra) G ltac:(lra)). lra.
Qed.

Lemma percentile_above (q : R) (a b : nat) (p x : R) :
  (1 <= a)%nat -> (1 <= b)%nat -> is_percentile q a b p ->
  0 <= x <= 1 -> beta_cdf a b x < q -> x < p.
Proof.
  intros Ha Hb [Hp Ep] Hx Hq.
  destruct (Rtotal_order p x) as [L|[E|G]]; [| |exact G].
  - pose proof (beta_cdf_increasing a b p x Ha Hb ltac:(lra) L ltac:(lra)). lra.
  - subst x. lra.
Qed.

Lemma share_range (y m : nat) :
  (0 < y + m)%nat -> 0 <= INR y / INR (y + m) <= 1.
Proof.
  intros Hd.
  assert (0 < INR (y + m)) by (apply lt_0_INR; lia).
  assert (0 <= INR y) by apply pos_INR.
  assert (INR y <= INR (y + m)) by (apply le_INR; lia).
  split.
  - apply Rmult_le_pos; [assumption|]. left. apply Rinv_0_lt_compat. assumption.
  - apply (Rmult_le_reg_r (INR (y + m))); [assumption|].
    unfold Rdiv. rewrite Rmult_assoc, Rinv_l by lra. lra.
Qed.

(** The bounds of a rendered report, from the counts alone. *)
Lemma render_bounds (t : tally) (re : bool) (s : option string) :
  (0 < valid_responses t)%nat ->
  valid_responses t = (yes_count t + no_count t)%nat ->
  match render t re s with
  | Success r =>
      (0 < rep_ci_low r /\ rep_ci_low r < rep_ci_high r /\ rep_ci_high r < 100)
      /\ 0 <= rep_yes_percentage r <= 100
      /\ ((0 < yes_count t)%nat -> (0 < no_count t)%nat ->
          (yes_count t + no_count t <= 100)%nat ->
          rep_ci_low r < rep_yes_percentage r < rep_ci_high r)
      /\ (no_count t = 0%nat ->
          rep_yes_percentage r = 100 /\ rep_ci_high r < rep_yes_percentage r)
      /\ (yes_count t = 0%nat ->
          rep_yes_percentage r = 0 /\ rep_yes_percentage r < rep_ci_low r)
  | Error _ => False
  end.
Proof.
  intros Hpos Hv. rewrite render_valid by exact Hpos.
  cbn [rep_ci_low rep_ci_high rep_yes_percentage]. rewrite Hv.
  set (y := yes_count t) in *. set (m := no_count t) in *.
  assert (Hlow : is_percentile (25 / 1000) (y + 1) (m + 1)
                   (beta_ppf (25 / 1000) (y + 1) (m + 1)))
    by (apply beta_ppf_percentile; [lra | lia | lia]).
  assert (Hhigh : is_percentile (975 / 1000) (y + 1) (m + 1)
                    (beta_ppf (975 / 1000) (y + 1) (m + 1)))
    by (apply beta_ppf_percentile; [lra | lia | lia]).
  pose proof (percentile_inside (25 / 1000) (y + 1) (m + 1) _
                ltac:(lra) ltac:(lia) ltac:(lia) Hlow) as Il.
  pose proof (percentile_inside (975 / 1000) (y + 1) (m + 1) _
                ltac:(lra) ltac:(lia) ltac:(lia) Hhigh) as Ih.
  pose proof (percentile_ordered (25 / 1000) (975 / 1000) (y + 1) (m + 1) _ _
                ltac:(lia) ltac:(lia) ltac:(lra) Hlow Hhigh) as Io.
  pose proof (share_range y m ltac:(lia)) as Hx.
  set (lo := beta_ppf (25 / 1000) (y + 1) (m + 1)) in *.
  set (hi := beta_ppf (975 / 1000) (y + 1) (m + 1)) in *.
  set (x := INR y / INR (y + m)) in *.
  split; [lra|]. split; [lra|]. split; [|split].
  - intros Hy Hm Hcap.
    destruct (beta_cdf_at_estimate y m ltac:(lia) ltac:(lia) Hcap) as [C1 C2].
    fold x in C1, C2.
    pose proof (percentile_below (25 / 1000) (y + 1) (m + 1) lo x
                  ltac:(lia) ltac:(lia) Hlow Hx C1).
    pose proof (percentile_above (975 / 1000) (y + 1) (m + 1) hi x
                  ltac:(lia) ltac:(lia) Hhigh Hx C2).
    lra.
  - intros Hm0.
    assert (x = 1).
    { unfold x. rewrite Hm0, Nat.add_0_r. apply Rinv_r.
      apply not_0_INR. lia. }
    lra.
  - intros Hy0.
    assert (x = 0).
    { unfold x. rewrite Hy0. simpl INR at 1. unfold Rdiv. ring. }
    lra.
Qed.

End ReportBounds.

Lemma fixed_string_chars_invalid (re : bool) :
  count_verdict Yes re (iterate (PyString error_or_no_data)) = 0
  /\ count_verdict No re (iterate (PyString error_or_no_data)) = 0.
Proof. destruct re; split; reflexivity. Qed.

(** The valid replies are among the replies of the batch. *)
Lemma collect_within_sample (srv : service) (cfg : config) (w : world) :
  exists (t : tally) (w1 : world),
    collect srv cfg w = (Ok t, w1)
    /\ valid_responses t = yes_count t + no_count t
    /\ (0 < yes_count t + no_count t ->
        yes_count t + no_count t <= num_queries cfg).
Proof.
  destruct (collect_run srv cfg w)
    as (t & w1 & Hc & _ & Hy & Hn & Hv & Hraw & _).
  exists t, w1. split; [exact Hc|]. split; [exact Hv|].
  intros Hpos.
  pose proof (count_verdict_partition (request_explanation cfg)
                (iterate (raw_responses t))) as Hp.
  rewrite <- Hy, <- Hn in Hp.
  assert (Hlen : List.length (iterate (raw_responses t)) = num_queries cfg).
  { rewrite Hraw. destruct (use_async cfg).
    - destruct ((0 <? num_queries cfg)%nat && _) eqn:E.
      + simpl. unfold batch_answers.
        rewrite !length_map, length_seq. reflexivity.
      + exfalso. rewrite Hraw in Hy, Hn.
        destruct (fixed_string_chars_invalid (request_explanation cfg))
          as [Zy Zn].
        rewrite Zy in Hy. rewrite Zn in Hn. lia.
    - simpl. unfold sequential_replies.
      rewrite length_map, length_seq. reflexivity. }
  lia.
Qed.

(** C8, counterexample: one query, answered "yes".  The estimate is 100
    and the claim wants the upper end both at least the estimate and
    strictly below 100. *)
Lemma estimate_above_interval_when_all_yes :
  exists (r : report) (w : world),
    main all_yes_service all_yes_run world0 = (Ok (Success r), w)
    /\ rep_yes_percentage r = 100%R
    /\ ~ interval_claim 1 0 r.
Proof.
  assert (Hc : exists w1,
    collect all_yes_service all_yes_run world0
    = (Ok (mkTally 1 0 1 (PyList ["yes"]) (PyList [])), w1))
    by (eexists; reflexivity).
  destruct Hc as [w1 Hc].
  rewrite (main_outcome _ _ _ _ _ Hc).
  cbn [valid_responses Nat.ltb Nat.leb all_yes_run request_explanation].
  rewrite render_valid by (simpl; lia).
  eexists. eexists. split; [reflexivity|].
  cbn [rep_yes_percentage rep_ci_high rep_ci_low yes_count no_count
       valid_responses INR].
  split; [lra|].
  intros [[_ [He _]] [Hh _]].
  cbn [rep_yes_percentage rep_ci_high yes_count no_count valid_responses INR]
    in He, Hh.
  specialize (Hh ltac:(lia) eq_refl). lra.
Qed.

(** C8, amended: whenever the estimate and the interval are defined,
    0 < low < high < 100 and 0 <= estimate <= 100.  With at least one Yes
    and one No among at most 100 queries (the cap of the input form),
    low < estimate < high.  With no No the estimate is 100 and high stays
    strictly below it; with no Yes the estimate is 0 and low stays
    strictly above it. *)
Theorem interval_bounds (srv : service) (cfg : config) (w : world) :
  exists (t : tally) (w1 : world),
    collect srv cfg w = (Ok t, w1)
    /\ (0 < yes_count t + no_count t ->
        match main srv cfg w with
        | (Ok (Success r), _) =>
            (0 < rep_ci_low r /\ rep_ci_low r < rep_ci_high r
             /\ rep_ci_high r < 100)%R
            /\ (0 <= rep_yes_percentage r <= 100)%R
            /\ (0 < yes_count t -> 0 < no_count t -> num_queries cfg <= 100 ->
                (rep_ci_low r < rep_yes_percentage r < rep_ci_high r)%R)
            /\ (no_count t = 0 ->
                rep_yes_percentage r = 100%R
                /\ (rep_ci_high r < rep_yes_percentage r)%R)
            /\ (yes_count t = 0 ->
                rep_yes_percentage r = 0%R
                /\ (rep_yes_percentage r < rep_ci_low r)%R)
        | (Ok (Error _), _) => False
        | (Exc e, _) =>
            request_explanation cfg = true
            /\ value (summarize_explanations srv (explanations t) w1) = Exc e
        end).
Proof.
  destruct (collect_within_sample srv cfg w) as (t & w1 & Hc & Hv & Hle).
  exists t, w1. split; [exact Hc|].
  intros Hpos. specialize (Hle Hpos).
  rewrite (main_outcome srv cfg w t w1 Hc).
  assert (Hlt : (0 <? valid_responses t)%nat = true)
    by (apply Nat.ltb_lt; lia).
  rewrite Hlt.
  assert (Hrep : forall re s,
    match render t re s with
    | Success r =>
        (0 < rep_ci_low r /\ rep_ci_low r < rep_ci_high r
         /\ rep_ci_high r < 100)%R
        /\ (0 <= rep_yes_percentage r <= 100)%R
        /\ (0 < yes_count t -> 0 < no_count t -> num_queries cfg <= 100 ->
            (rep_ci_low r < rep_yes_percentage r < rep_ci_high r)%R)
        /\ (no_count t = 0 ->
            rep_yes_percentage r = 100%R
            /\ (rep_ci_high r < rep_yes_percentage r)%R)
        /\ (yes_count t = 0 ->
            rep_yes_percentage r = 0%R
            /\ (rep_yes_percentage r < rep_ci_low r)%R)
    | Error _ => False
    end).
  { intros re s.
    pose proof (render_bounds t re s ltac:(lia) Hv) as Hb.
    destruct (render t re s) as [r|msg]; [|exact Hb].
    destruct Hb as (B1 & B2 & B3 & B4 & B5).
    split; [exact B1|]. split; [exact B2|]. split; [|split; assumption].
    intros Hy Hm Hcap. apply B3; lia. }
  destruct (request_explanation cfg).
  - destruct (summarize_explanations srv (explanations t) w1) as [[s|e] w2].
    + apply Hrep.
    + split; reflexivity.
  - apply Hrep.
Qed.

(** ** The guard of the summarizer and the scenarios of the spec *)

(** After a run, the requests sent are the queries of the batch and,
    exactly when explanations were requested and some reply is valid, one
    summarizing request. *)
Lemma summarizer_called_under_guard (srv : service) (cfg : config) (w : world) :
  exists (t : tally) (w1 : world),
    collect srv cfg w = (Ok t, w1)
    /\ sent (final (main srv cfg w)) =
       (sent w ++ repeat (query_request cfg) (num_queries cfg)
        ++ if request_explanation cfg && (0 <? yes_count t + no_count t)%nat
           then [mkRequest 200 "claude-3-opus-20240229"
                   (summary_prompt (explanations t))]
           else [])%list.
Proof.
  destruct (collect_run srv cfg w) as (t & w1 & Hc & Hs & _ & _ & Hv & _).
  exists t, w1. split; [exact Hc|].
  rewrite main_final, (run_queries_run srv cfg w t w1 Hc), <- Hv.
  destruct (request_explanation cfg && (0 <? valid_responses t)%nat).
  - rewrite summarize_explanations_run.
    destruct (srv (List.length (sent w1)) _); simpl;
      rewrite Hs, <- app_assoc; reflexivity.
  - simpl. rewrite Hs, app_nil_r. reflexivity.
Qed.

(** Five replies "yes", "no", "maybe", "YES", "no" without explanations:
    two Yes, two No, one Invalid, estimate 50, in either mode. *)
Example scenario_mixed_replies (async : bool) :
  exists (t : tally) (w1 : world) (r : report),
    collect scenario_service (scenario_run async) world0 = (Ok t, w1)
    /\ (yes_count t, no_count t, valid_responses t) = (2, 2, 4)
    /\ count_verdict Invalid false (iterate (raw_responses t)) = 1
    /\ main scenario_service (scenario_run async) world0 = (Ok (Success r), w1)
    /\ rep_yes_percentage r = 50%R
    /\ (rep_ci_low r < rep_yes_percentage r < rep_ci_high r)%R.
Proof.
  assert (Hc : exists t w1,
    collect scenario_service (scenario_run async) world0 = (Ok t, w1)
    /\ (yes_count t, no_count t, valid_responses t) = (2, 2, 4)
    /\ count_verdict Invalid false (iterate (raw_responses t)) = 1)
    by (destruct async; eexists; eexists; repeat split).
  destruct Hc as (t & w1 & Hc & Hn & Hi).
  injection Hn as Hy Hno Hv.
  pose proof (render_bounds t false None ltac:(lia) ltac:(lia)) as Hb.
  exists t, w1.
  rewrite (main_outcome _ _ _ _ _ Hc), Hv.
  replace (request_explanation (scenario_run async)) with false
    by (destruct async; reflexivity).
  cbn [Nat.ltb Nat.leb].
  destruct (render t false None) as [r|msg] eqn:Er; [|contradiction].
  exists r. split; [exact Hc|]. split; [congruence|]. split; [exact Hi|].
  split; [reflexivity|].
  destruct Hb as (_ & _ & Hin & _).
  rewrite render_valid in Er by lia. injection Er as <-.
  cbn [rep_yes_percentage rep_ci_low rep_ci_high] in *.
  split; [|apply Hin; lia].
  rewrite Hy, Hv. simpl. lra.
Qed.

(** Three queries that all fail: no valid response, no estimate, in
    either mode. *)
Example scenario_all_failed (async : bool) :
  value (main failing_service (failing_run async) world0)
  = Ok (Error no_valid_responses).
Proof.
  rewrite main_run. destruct async; reflexivity.
Qed.

(** * Further properties of the code *)

(** ** The classifier *)

Lemma lower_app (a b : string) :
  PyStr.lower (a ++ b) = PyStr.lower a ++ PyStr.lower b.
Proof.
  induction a as [|c a IH]; simpl; [reflexivity|].
  rewrite IH. reflexivity.
Qed.

Lemma lower_length (s : string) : String.length (PyStr.lower s) = String.length s.
Proof.
  induction s as [|c s IH]; simpl; [reflexivity|].
  rewrite IH. reflexivity.
Qed.

Lemma startswith_app (p s : string) : PyStr.startswith (p ++ s) p = true.
Proof.
  induction p as [|c p IH]; [destruct s; reflexivity|].
  change (String c p ++ s) with (String c (p ++ s)).
  rewrite startswith_cons, Ascii.eqb_refl. exact IH.
Qed.

(** With explanations requested the verdict is read off the first
    letters alone, whatever their case and whatever follows them: no word
    boundary is asked for after "yes" or "no". *)
Theorem prefix_verdict_ignores_rest (p s : string) :
  (PyStr.lower p = "yes" -> classify (p ++ s) true = Yes)
  /\ (PyStr.lower p = "no" -> classify (p ++ s) true = No).
Proof.
  split; intros Hp.
  - rewrite classify_explained, lower_app, Hp, startswith_app. reflexivity.
  - rewrite classify_explained, lower_app, Hp.
    assert (Hn : PyStr.startswith ("no" ++ PyStr.lower s) "no" = true)
      by apply startswith_app.
    destruct (PyStr.startswith ("no" ++ PyStr.lower s) "yes") eqn:Hy.
    + apply startswith_yes_not_no in Hy. congruence.
    + rewrite Hn. reflexivity.
Qed.

(** A text accepted without explanations has two or three characters,
    and it gets the same verdict when explanations are requested. *)
Theorem terse_verdict_kept_with_explanations (t : string) :
  classify t false <> Invalid ->
  classify t true = classify t false
  /\ (String.length t = 3 \/ String.length t = 2).
Proof.
  rewrite classify_terse, classify_explained.
  destruct (PyStr.lower t =? "yes") eqn:Ey.
  - intros _. rewrite (eqb_startswith _ _ Ey). split; [reflexivity|].
    left. apply String.eqb_eq in Ey.
    rewrite <- lower_length, Ey. reflexivity.
  - destruct (PyStr.lower t =? "no") eqn:En; [|congruence].
    intros _. pose proof (eqb_startswith _ _ En) as Hn.
    destruct (PyStr.startswith (PyStr.lower t) "yes") eqn:Hy.
    + apply startswith_yes_not_no in Hy. congruence.
    + rewrite Hn. split; [reflexivity|].
      right. apply String.eqb_eq in En.
      rewrite <- lower_length, En. reflexivity.
Qed.

Lemma terse_verdict_kept_with_explanations_witness :
  classify "YES" false <> Invalid
  /\ classify "YES" true = classify "YES" false
  /\ (String.length "YES" = 3 \/ String.length "YES" = 2).
Proof.
  assert (H : classify "YES" false <> Invalid) by (vm_compute; discriminate).
  split; [exact H|].
  exact (terse_verdict_kept_with_explanations "YES" H).
Defined.

(** ** The two dispatch modes *)

Lemma sequential_dispatch_witness :
  use_async (one_failure_run false) = false
  /\ value (dispatch one_failure_service (one_failure_run false) world0)
     = Ok (PyList (sequential_replies one_failure_service (one_failure_run false)
                     (num_queries (one_failure_run false)) world0))
  /\ List.length (sequential_replies one_failure_service (one_failure_run false)
                    (num_queries (one_failure_run false)) world0)
     = num_queries (one_failure_run false)
  /\ forall i, i < num_queries (one_failure_run false) ->
       nth i (sequential_replies one_failure_service (one_failure_run false)
                (num_queries (one_failure_run false)) world0) EmptyString
       = reply_of (one_failure_service (List.length (sent world0) + i)
                     (query_request (one_failure_run false))).
Proof.
  split; [reflexivity|].
  exact (sequential_dispatch one_failure_service (one_failure_run false) world0
           eq_refl).
Defined.

Lemma replies_of_batch (srv : service) (cfg : config) (n : nat) (w : world) :
  map reply_of (batch_answers srv (question cfg) (model_type cfg)
                  (request_explanation cfg) n w)
  = sequential_replies srv cfg n w.
Proof.
  unfold batch_answers, sequential_replies, query_request.
  rewrite map_map. reflexivity.
Qed.

Lemma batch_answers_length (srv : service) (q : string) (m : model_name)
    (re : bool) (n : nat) (w : world) :
  List.length (batch_answers srv q m re n w) = n.
Proof. unfold batch_answers. rewrite length_map, length_seq. reflexivity. Qed.

(** In parallel mode, when each of the [n >= 1] requests is answered by
    a response whose first block has a text, the dispatcher returns the
    [n] stripped texts in request order. *)
Theorem parallel_dispatch_in_request_order (srv : service) (cfg : config)
    (w : world) :
  use_async cfg = true ->
  0 < num_queries cfg ->
  forallb well_formed
    (batch_answers srv (question cfg) (model_type cfg)
       (request_explanation cfg) (num_queries cfg) w) = true ->
  exists texts,
    value (dispatch srv cfg w) = Ok (PyList texts)
    /\ List.length texts = num_queries cfg
    /\ forall i, i < num_queries cfg ->
         nth i texts EmptyString
         = reply_of (srv (List.length (sent w) + i) (query_request cfg)).
Proof.
  intros Ha Hn Hwf.
  destruct (collect_run srv cfg w) as (t & w1 & Hc & _ & _ & _ & _ & Hraw & _).
  rewrite Ha, Hwf in Hraw.
  apply Nat.ltb_lt in Hn. rewrite Hn in Hraw. simpl in Hraw.
  rewrite replies_of_batch in Hraw.
  exists (sequential_replies srv cfg (num_queries cfg) w). split; [|split].
  - unfold dispatch, bind. rewrite Hc. simpl. rewrite Hraw. reflexivity.
  - unfold sequential_replies. rewrite length_map, length_seq. reflexivity.
  - intros i Hi. unfold sequential_replies.
    rewrite nth_indep
      with (d' := reply_of (srv (List.length (sent w) + 0) (query_request cfg)))
      by (rewrite length_map, length_seq; exact Hi).
    rewrite (map_nth (fun i => reply_of (srv (List.length (sent w) + i)
                                           (query_request cfg)))).
    rewrite seq_nth by exact Hi. reflexivity.
Qed.

Lemma parallel_dispatch_in_request_order_witness :
  use_async (scenario_run true) = true
  /\ 0 < num_queries (scenario_run true)
  /\ forallb well_formed
       (batch_answers scenario_service (question (scenario_run true))
          (model_type (scenario_run true))
          (request_explanation (scenario_run true))
          (num_queries (scenario_run true)) world0) = true
  /\ exists texts,
       value (dispatch scenario_service (scenario_run true) world0)
       = Ok (PyList texts)
       /\ List.length texts = num_queries (scenario_run true)
       /\ forall i, i < num_queries (scenario_run true) ->
            nth i texts EmptyString
            = reply_of (scenario_service (List.length (sent world0) + i)
                          (query_request (scenario_run true))).
Proof.
  split; [reflexivity|]. split; [simpl; lia|]. split; [reflexivity|].
  apply (parallel_dispatch_in_request_order scenario_service
           (scenario_run true) world0); [reflexivity | simpl; lia | reflexivity].
Defined.

Lemma tally_async_fixed_string (re : bool) :
  yes_count (tally_async (PyString error_or_no_data) re) = 0
  /\ no_count (tally_async (PyString error_or_no_data) re) = 0
  /\ valid_responses (tally_async (PyString error_or_no_data) re) = 0.
Proof. destruct re; repeat split. Qed.

(** In parallel mode, when one answer raises or has no first text (or
    the batch is empty), the whole batch is replaced by the fixed string:
    all requests have been sent, nothing is counted, no summary is asked
    for, and the run ends with the message that no valid responses were
    received, whatever the other answers were. *)
Theorem parallel_batch_all_or_nothing (srv : service) (cfg : config)
    (w : world) :
  use_async cfg = true ->
  (0 <? num_queries cfg)%nat
  && forallb well_formed
       (batch_answers srv (question cfg) (model_type cfg)
          (request_explanation cfg) (num_queries cfg) w) = false ->
  value (dispatch srv cfg w) = Ok (PyString error_or_no_data)
  /\ value (main srv cfg w) = Ok (Error no_valid_responses)
  /\ sent (final (main srv cfg w))
     = (sent w ++ repeat (query_request cfg) (num_queries cfg))%list.
Proof.
  intros Ha Hbad.
  destruct (collect_run srv cfg w)
    as (t & w1 & Hc & Hs & Hy & Hn & Hv & Hraw & _).
  rewrite Ha, Hbad in Hraw.
  rewrite Hraw in Hy, Hn.
  destruct (fixed_string_chars_invalid (request_explanation cfg)) as [Zy Zn].
  rewrite Zy in Hy. rewrite Zn in Hn.
  assert (Hz : valid_responses t = 0) by lia.
  split; [|split].
  - unfold dispatch, bind. rewrite Hc. simpl. rewrite Hraw. reflexivity.
  - rewrite (main_outcome srv cfg w t w1 Hc), Hz. reflexivity.
  - rewrite (main_outcome srv cfg w t w1 Hc), Hz. exact Hs.
Qed.

Lemma parallel_batch_all_or_nothing_witness :
  use_async (one_failure_run true) = true
  /\ (0 <? num_queries (one_failure_run true))%nat
     && forallb well_formed
          (batch_answers one_failure_service (question (one_failure_run true))
             (model_type (one_failure_run true))
             (request_explanation (one_failure_run true))
             (num_queries (one_failure_run true)) world0) = false
  /\ value (dispatch one_failure_service (one_failure_run true) world0)
     = Ok (PyString error_or_no_data)
  /\ value (main one_failure_service (one_failure_run true) world0)
     = Ok (Error no_valid_responses)
  /\ sent (final (main one_failure_service (one_failure_run true) world0))
     = (sent world0
        ++ repeat (query_request (one_failure_run true))
             (num_queries (one_failure_run true)))%list.
Proof.
  split; [reflexivity|]. split; [reflexivity|].
  apply (parallel_batch_all_or_nothing one_failure_service
           (one_failure_run true) world0); reflexivity.
Defined.

Lemma filter_all {A} (f : A -> bool) (l : list A) :
  forallb f l = true -> filter f l = l.
Proof.
  induction l as [|x l IH]; simpl; [reflexivity|].
  intros H. apply andb_prop in H as [Hx Hl].
  rewrite Hx, (IH Hl). reflexivity.
Qed.

Lemma tally_eq (t u : tally) :
  yes_count t = yes_count u -> no_count t = no_count u ->
  valid_responses t = valid_responses u ->
  raw_responses t = raw_responses u -> explanations t = explanations u ->
  t = u.
Proof.
  destruct t, u. simpl. intros -> -> -> -> ->. reflexivity.
Qed.

(** The two modes show the same screen for the same service when every
    request of the batch is answered by a response whose first block has
    a text and, if explanations are requested, every reply is a valid
    one. *)
Theorem modes_agree_on_well_formed_batches (srv : service) (cfg : config)
    (w : world) :
  0 < num_queries cfg ->
  forallb well_formed
    (batch_answers srv (question cfg) (model_type cfg)
       (request_explanation cfg) (num_queries cfg) w) = true ->
  (request_explanation cfg = true ->
   forallb (fun r => is_valid_response r true)
     (sequential_replies srv cfg (num_queries cfg) w) = true) ->
  value (main srv (with_async cfg true) w)
  = value (main srv (with_async cfg false) w).
Proof.
  intros Hn Hwf Hvalid.
  destruct (collect_run srv (with_async cfg true) w)
    as (ta & wa & Hca & Hsa & Hya & Hna & Hva & Hrawa & Hexa).
  destruct (collect_run srv (with_async cfg false) w)
    as (ts & ws & Hcs & Hss & Hys & Hns & Hvs & Hraws & Hexs).
  cbn [with_async use_async question model_type request_explanation
       num_queries] in *.
  apply Nat.ltb_lt in Hn. rewrite Hn, Hwf in Hrawa. simpl in Hrawa.
  rewrite replies_of_batch in Hrawa.
  assert (Hseq : sequential_replies srv (with_async cfg false) (num_queries cfg) w
                 = sequential_replies srv cfg (num_queries cfg) w) by reflexivity.
  rewrite Hseq in Hraws.
  assert (Hraw : raw_responses ta = raw_responses ts) by congruence.
  assert (Ht : ta = ts).
  { apply tally_eq; try congruence.
    rewrite Hexa, Hexs, Hraws, Hrawa.
    destruct (request_explanation cfg) eqn:Ere; [|reflexivity].
    cbn [iterate]. rewrite (filter_all _ _ (Hvalid eq_refl)). reflexivity. }
  subst ts.
  rewrite (main_outcome _ _ _ _ _ Hca), (main_outcome _ _ _ _ _ Hcs).
  cbn [with_async request_explanation].
  destruct (0 <? valid_responses ta)%nat; [|reflexivity].
  destruct (request_explanation cfg); [|reflexivity].
  rewrite !summarize_explanations_run.
  assert (Hlen : List.length (sent wa) = List.length (sent ws))
    by (rewrite Hsa, Hss; reflexivity).
  rewrite Hlen.
  destruct (srv (List.length (sent ws)) _); reflexivity.
Qed.

Lemma modes_agree_on_well_formed_batches_witness :
  0 < num_queries (scenario_run false)
  /\ forallb well_formed
       (batch_answers scenario_service (question (scenario_run false))
          (model_type (scenario_run false))
          (request_explanation (scenario_run false))
          (num_queries (scenario_run false)) world0) = true
  /\ (request_explanation (scenario_run false) = true ->
      forallb (fun r => is_valid_response r true)
        (sequential_replies scenario_service (scenario_run false)
           (num_queries (scenario_run false)) world0) = true)
  /\ value (main scenario_service (with_async (scenario_run false) true) world0)
     = value (main scenario_service (with_async (scenario_run false) false) world0).
Proof.
  assert (H3 : request_explanation (scenario_run false) = true ->
      forallb (fun r => is_valid_response r true)
        (sequential_replies scenario_service (scenario_run false)
           (num_queries (scenario_run false)) world0) = true)
    by (simpl; discriminate).
  split; [simpl; lia|]. split; [reflexivity|]. split; [exact H3|].
  apply (modes_agree_on_well_formed_batches scenario_service
           (scenario_run false) world0); [simpl; lia | reflexivity | exact H3].
Defined.

(** ** The counts *)

(** In both modes each reply that [main] classifies is counted under
    exactly one verdict, the valid responses are the Yes and the No
    together, and the classified replies are the [num_queries] replies of
    the batch, unless the parallel branch fell back to the fixed string,
    where nothing is counted. *)
Theorem counts_partition_classified_replies (srv : service) (cfg : config)
    (w : world) :
  exists (t : tally) (w1 : world),
    collect srv cfg w = (Ok t, w1)
    /\ yes_count t
       = count_verdict Yes (request_explanation cfg) (iterate (raw_responses t))
    /\ no_count t
       = count_verdict No (request_explanation cfg) (iterate (raw_responses t))
    /\ valid_responses t = yes_count t + no_count t
    /\ yes_count t + no_count t
       + count_verdict Invalid (request_explanation cfg)
           (iterate (raw_responses t))
       = List.length (iterate (raw_responses t))
    /\ (List.length (iterate (raw_responses t)) = num_queries cfg
        \/ (use_async cfg = true
            /\ raw_responses t = PyString error_or_no_data
            /\ valid_responses t = 0)).
Proof.
  destruct (collect_run srv cfg w)
    as (t & w1 & Hc & _ & Hy & Hn & Hv & Hraw & _).
  exists t, w1. split; [exact Hc|]. split; [exact Hy|]. split; [exact Hn|].
  split; [exact Hv|]. split.
  - rewrite Hy, Hn. apply count_verdict_partition.
  - destruct (use_async cfg).
    + destruct ((0 <? num_queries cfg)%nat && _).
      * left. rewrite Hraw. simpl. rewrite length_map.
        apply batch_answers_length.
      * right. split; [reflexivity|]. split; [exact Hraw|].
        rewrite Hraw in Hy, Hn.
        destruct (fixed_string_chars_invalid (request_explanation cfg))
          as [Zy Zn].
        rewrite Zy in Hy. rewrite Zn in Hn. lia.
    + left. rewrite Hraw. simpl. unfold sequential_replies.
      rewrite length_map, length_seq. reflexivity.
Qed.

Lemma count_verdict_permutation (v : verdict) (re : bool)
    (l l' : list string) :
  Permutation l l' -> count_verdict v re l = count_verdict v re l'.
Proof.
  intros H. induction H as [|x l l' _ IH|x y l|l l' l'' _ IH1 _ IH2].
  - reflexivity.
  - rewrite !count_verdict_cons, IH. reflexivity.
  - rewrite !count_verdict_cons. lia.
  - congruence.
Qed.

(** The counts do not depend on the order of the replies: the sums of
    the parallel branch and the loop of the sequential branch give the
    same three numbers on any rearrangement of the same replies, and the
    two branches agree with each other. *)
Theorem counts_do_not_depend_on_order (re : bool) (l l' : list string) :
  Permutation l l' ->
  let a := tally_async (PyList l) re in
  let a' := tally_async (PyList l') re in
  let s := fold_left (loop_body re) l loop_init in
  let s' := fold_left (loop_body re) l' loop_init in
  (yes_count a, no_count a, valid_responses a)
  = (yes_count a', no_count a', valid_responses a')
  /\ (l_yes s, l_no s, l_valid s) = (l_yes s', l_no s', l_valid s')
  /\ (yes_count a, no_count a, valid_responses a) = (l_yes s, l_no s, l_valid s).
Proof.
  intros Hp a a' s s'.
  destruct (tally_async_counts (PyList l) re) as (Ay & An & Av).
  destruct (tally_async_counts (PyList l') re) as (Ay' & An' & Av').
  destruct (loop_fold_counts re l loop_init) as (Sy & Sn & Sv & _).
  destruct (loop_fold_counts re l' loop_init) as (Sy' & Sn' & Sv' & _).
  fold a in Ay, An, Av. fold a' in Ay', An', Av'.
  fold s in Sy, Sn, Sv. fold s' in Sy', Sn', Sv'.
  simpl in *.
  pose proof (count_verdict_permutation Yes re l l' Hp) as Py.
  pose proof (count_verdict_permutation No re l l' Hp) as Pn.
  rewrite Ay, An, Av, Ay', An', Av', Sy, Sn, Sv, Sy', Sn', Sv', Py, Pn.
  repeat split.
Qed.

Lemma counts_do_not_depend_on_order_witness :
  Permutation ["yes"; "no"; "maybe"] ["maybe"; "no"; "yes"]
  /\ let a := tally_async (PyList ["yes"; "no"; "maybe"]) false in
     let a' := tally_async (PyList ["maybe"; "no"; "yes"]) false in
     let s := fold_left (loop_body false) ["yes"; "no"; "maybe"] loop_init in
     let s' := fold_left (loop_body false) ["maybe"; "no"; "yes"] loop_init in
     (yes_count a, no_count a, valid_responses a)
     = (yes_count a', no_count a', valid_responses a')
     /\ (l_yes s, l_no s, l_valid s) = (l_yes s', l_no s', l_valid s')
     /\ (yes_count a, no_count a, valid_responses a) = (l_yes s, l_no s, l_valid s).
Proof.
  assert (Hp : Permutation ["yes"; "no"; "maybe"] ["maybe"; "no"; "yes"]).
  { apply perm_trans with (l' := ["no"; "yes"; "maybe"]); [apply perm_swap|].
    apply perm_trans with (l' := ["no"; "maybe"; "yes"]);
      [apply perm_skip, perm_swap | apply perm_swap]. }
  split; [exact Hp|].
  exact (counts_do_not_depend_on_order false _ _ Hp).
Defined.

(** ** The explanations and the summary *)

Lemma filter_valid_length (re : bool) (l : list string) :
  List.length (filter (fun r => is_valid_response r re) l)
  = count_verdict Yes re l + count_verdict No re l.
Proof.
  induction l as [|x l IH]; [reflexivity|].
  rewrite !count_verdict_cons. simpl. rewrite is_valid_classify.
  destruct (classify x re); simpl; lia.
Qed.

(** In sequential mode the explanations kept for the summary are the
    valid replies, in issue order, and nothing else: as many as there are
    valid responses when explanations are requested, none otherwise. *)
Theorem sequential_explanations_are_the_valid_replies (srv : service)
    (cfg : config) (w : world) :
  use_async cfg = false ->
  exists (t : tally) (w1 : world),
    collect srv cfg w = (Ok t, w1)
    /\ iterate (explanations t)
       = (if request_explanation cfg
          then filter (fun r => is_valid_response r (request_explanation cfg))
                      (sequential_replies srv cfg (num_queries cfg) w)
          else [])
    /\ Forall (fun r => classify r (request_explanation cfg) <> Invalid)
              (iterate (explanations t))
    /\ List.length (iterate (explanations t))
       = (if request_explanation cfg then valid_responses t else 0).
Proof.
  intros Hseq.
  destruct (collect_run srv cfg w)
    as (t & w1 & Hc & _ & Hy & Hn & Hv & Hraw & Hex).
  rewrite Hseq in Hraw, Hex. rewrite Hraw in Hex, Hy, Hn. cbn [iterate] in *.
  exists t, w1. split; [exact Hc|].
  rewrite Hex. cbn [iterate].
  destruct (request_explanation cfg) eqn:Ere; [|repeat split; constructor].
  split; [reflexivity|]. split.
  - apply Forall_forall. intros r Hin. apply filter_In in Hin as [_ Hr].
    rewrite is_valid_classify in Hr.
    destruct (classify r true); [discriminate | discriminate | discriminate Hr].
  - rewrite filter_valid_length, Hv, Hy, Hn. reflexivity.
Qed.

Lemma sequential_explanations_are_the_valid_replies_witness :
  use_async (mixed_run false) = false
  /\ exists (t : tally) (w1 : world),
       collect mixed_service (mixed_run false) world0 = (Ok t, w1)
       /\ iterate (explanations t)
          = (if request_explanation (mixed_run false)
             then filter (fun r => is_valid_response r
                                     (request_explanation (mixed_run false)))
                         (sequential_replies mixed_service (mixed_run false)
                            (num_queries (mixed_run false)) world0)
             else [])
       /\ Forall (fun r => classify r (request_explanation (mixed_run false))
                           <> Invalid)
                 (iterate (explanations t))
       /\ List.length (iterate (explanations t))
          = (if request_explanation (mixed_run false)
             then valid_responses t else 0).
Proof.
  split; [reflexivity|].
  exact (sequential_explanations_are_the_valid_replies mixed_service
           (mixed_run false) world0 eq_refl).
Defined.

(** When the summarizing call returns a response, whatever its shape,
    the report is produced with the same numbers: its summary is the
    stripped first text, or the placeholder
    "Error summarizing explanations" when there is no such text. *)
Theorem report_survives_malformed_summary (srv : service) (cfg : config)
    (w : world) (t : tally) (w1 : world) (r : response) :
  collect srv cfg w = (Ok t, w1) ->
  0 < valid_responses t ->
  request_explanation cfg = true ->
  srv (List.length (sent w1))
      (mkRequest 200 "claude-3-opus-20240229" (summary_prompt (explanations t)))
  = Returns r ->
  exists (rep : report) (w2 : world),
    main srv cfg w = (Ok (Success rep), w2)
    /\ rep_summary rep
       = Some match content r with
              | Some (TextBlock x :: _) => PyStr.strip x
              | _ => error_summarizing
              end
    /\ Success rep
       = render t true
           (Some match content r with
                 | Some (TextBlock x :: _) => PyStr.strip x
                 | _ => error_summarizing
                 end)
    /\ rep_valid rep = valid_responses t
    /\ rep_rows rep = raw_responses t.
Proof.
  intros Hc Hpos Hre Hsrv.
  rewrite (main_outcome srv cfg w t w1 Hc), Hre.
  assert (Hlt : (0 <? valid_responses t)%nat = true) by (apply Nat.ltb_lt; lia).
  rewrite Hlt, summarize_explanations_run, Hsrv.
  rewrite render_valid by exact Hpos.
  eexists. eexists. split; [reflexivity|]. repeat split.
Qed.

Lemma report_survives_malformed_summary_witness :
  let t := mkTally 1 0 1 (PyList ["yes, because X"]) (PyList ["yes, because X"]) in
  let w1 := mkWorld [query_request lost_summary_run] [] in
  let r := mkResponse (Some []) in
  collect empty_summary_service lost_summary_run world0 = (Ok t, w1)
  /\ 0 < valid_responses t
  /\ request_explanation lost_summary_run = true
  /\ empty_summary_service (List.length (sent w1))
       (mkRequest 200 "claude-3-opus-20240229" (summary_prompt (explanations t)))
     = Returns r
  /\ exists (rep : report) (w2 : world),
       main empty_summary_service lost_summary_run world0 = (Ok (Success rep), w2)
       /\ rep_summary rep = Some error_summarizing
       /\ Success rep = render t true (Some error_summarizing)
       /\ rep_valid rep = valid_responses t
       /\ rep_rows rep = raw_responses t.
Proof.
  intros t w1 r.
  assert (H1 : collect empty_summary_service lost_summary_run world0 = (Ok t, w1))
    by reflexivity.
  assert (H2 : 0 < valid_responses t) by (simpl; lia).
  assert (H4 : empty_summary_service (List.length (sent w1))
                 (mkRequest 200 "claude-3-opus-20240229"
                    (summary_prompt (explanations t))) = Returns r)
    by reflexivity.
  split; [exact H1|]. split; [exact H2|]. split; [reflexivity|].
  split; [exact H4|].
  exact (report_survives_malformed_summary empty_summary_service
           lost_summary_run world0 t w1 r H1 H2 eq_refl H4).
Defined.

(** ** The report and the batch *)

Lemma sequential_replies_trimmed (srv : service) (cfg : config) (n : nat)
    (w : world) :
  Forall PyStr.trimmed (sequential_replies srv cfg n w).
Proof.
  apply Forall_forall. intros r Hin.
  apply in_map_iff in Hin as (i & <- & _). apply reply_of_trimmed.
Qed.

(** Whenever a report is shown, in either mode, the rows offered for
    download are the [num_queries] replies of the batch, each without
    leading or trailing whitespace, and the number of valid responses
    lies between 1 and [num_queries]. *)
Theorem report_rows_are_the_batch (srv : service) (cfg : config) (w : world)
    (r : report) (w' : world) :
  main srv cfg w = (Ok (Success r), w') ->
  rep_rows r = PyList (sequential_replies srv cfg (num_queries cfg) w)
  /\ List.length (sequential_replies srv cfg (num_queries cfg) w)
     = num_queries cfg
  /\ Forall PyStr.trimmed (sequential_replies srv cfg (num_queries cfg) w)
  /\ 1 <= rep_valid r <= num_queries cfg.
Proof.
  intros Hmain.
  destruct (collect_run srv cfg w)
    as (t & w1 & Hc & _ & Hy & Hn & Hv & Hraw & _).
  rewrite (main_outcome srv cfg w t w1 Hc) in Hmain.
  destruct (0 <? valid_responses t)%nat eqn:Hlt; [|discriminate].
  apply Nat.ltb_lt in Hlt.
  assert (Hr : Success r
               = render t (request_explanation cfg) (rep_summary r)).
  { rewrite render_valid by exact Hlt.
    destruct (request_explanation cfg).
    - destruct (summarize_explanations srv (explanations t) w1) as [[s|e] w2];
        [|discriminate].
      rewrite render_valid in Hmain by exact Hlt.
      injection Hmain as <- _. reflexivity.
    - rewrite render_valid in Hmain by exact Hlt.
      injection Hmain as <- _. reflexivity. }
  rewrite render_valid in Hr by exact Hlt.
  injection Hr as Hr. 
  assert (Hrows : rep_rows r = raw_responses t) by (rewrite Hr; reflexivity).
  assert (Hval : rep_valid r = valid_responses t) by (rewrite Hr; reflexivity).
  assert (Hlist : raw_responses t
                  = PyList (sequential_replies srv cfg (num_queries cfg) w)).
  { rewrite Hraw. destruct (use_async cfg); [|reflexivity].
    destruct ((0 <? num_queries cfg)%nat && _).
    - rewrite replies_of_batch. reflexivity.
    - exfalso. rewrite Hraw in Hy, Hn.
      destruct (fixed_string_chars_invalid (request_explanation cfg))
        as [Zy Zn].
      rewrite Zy in Hy. rewrite Zn in Hn. lia. }
  assert (Hlen : List.length (sequential_replies srv cfg (num_queries cfg) w)
                 = num_queries cfg)
    by (unfold sequential_replies; rewrite length_map, length_seq; reflexivity).
  split; [congruence|]. split; [exact Hlen|].
  split; [apply sequential_replies_trimmed|].
  pose proof (count_verdict_partition (request_explanation cfg)
                (iterate (raw_responses t))) as Hp.
  rewrite Hlist in Hp. cbn [iterate] in Hp. rewrite Hlist in Hy, Hn.
  cbn [iterate] in Hy, Hn. lia.
Qed.

Lemma all_yes_report :
  exists (r : report) (w' : world),
    main all_yes_service all_yes_run world0 = (Ok (Success r), w').
Proof.
  assert (Hc : exists w1,
    collect all_yes_service all_yes_run world0
    = (Ok (mkTally 1 0 1 (PyList ["yes"]) (PyList [])), w1))
    by (eexists; reflexivity).
  destruct Hc as [w1 Hc].
  rewrite (main_outcome _ _ _ _ _ Hc).
  cbn [valid_responses Nat.ltb Nat.leb all_yes_run request_explanation].
  rewrite render_valid by (simpl; lia).
  eexists. eexists. reflexivity.
Qed.

Lemma report_rows_are_the_batch_witness :
  exists (r : report) (w' : world),
    main all_yes_service all_yes_run world0 = (Ok (Success r), w')
    /\ rep_rows r
       = PyList (sequential_replies all_yes_service all_yes_run
                   (num_queries all_yes_run) world0)
    /\ List.length (sequential_replies all_yes_service all_yes_run
                      (num_queries all_yes_run) world0)
       = num_queries all_yes_run
    /\ Forall PyStr.trimmed
         (sequential_replies all_yes_service all_yes_run
            (num_queries all_yes_run) world0)
    /\ 1 <= rep_valid r <= num_queries all_yes_run.
Proof.
  destruct all_yes_report as (r & w' & H).
  exists r, w'. split; [exact H|].
  exact (report_rows_are_the_batch all_yes_service all_yes_run world0 r w' H).
Defined.

Lemma reply_of_not_well_formed (a : api_result) :
  well_formed a = false -> reply_of a = error_or_no_data.
Proof.
  destruct a as [e|[[[|[x|] bs]|]]]; simpl; intros H;
    try reflexivity; discriminate.
Qed.

Lemma valid_replies_bounded (re : bool) (answers : list api_result) :
  count_verdict Yes re (map reply_of answers)
  + count_verdict No re (map reply_of answers)
  <= List.length (filter well_formed answers).
Proof.
  induction answers as [|a answers IH]; [reflexivity|].
  cbn [map filter]. rewrite !count_verdict_cons.
  destruct (well_formed a) eqn:Ea.
  - simpl List.length. destruct (classify (reply_of a) re); simpl; lia.
  - rewrite (reply_of_not_well_formed a Ea), classify_failure. simpl. lia.
Qed.

(** A call that raised, or whose response has no first text, is never
    counted as a Yes or a No: in both modes the number of valid responses
    is at most the number of requests answered with a text. *)
Theorem valid_responses_come_from_answered_calls (srv : service)
    (cfg : config) (w : world) :
  exists (t : tally) (w1 : world),
    collect srv cfg w = (Ok t, w1)
    /\ valid_responses t
       <= List.length
            (filter well_formed
               (batch_answers srv (question cfg) (model_type cfg)
                  (request_explanation cfg) (num_queries cfg) w)).
Proof.
  destruct (collect_run srv cfg w)
    as (t & w1 & Hc & _ & Hy & Hn & Hv & Hraw & _).
  exists t, w1. split; [exact Hc|].
  pose proof (valid_replies_bounded (request_explanation cfg)
                (batch_answers srv (question cfg) (model_type cfg)
                   (request_explanation cfg) (num_queries cfg) w)) as Hb.
  rewrite Hraw in Hy, Hn.
  destruct (use_async cfg).
  - destruct ((0 <? num_queries cfg)%nat && _).
    + cbn [iterate] in Hy, Hn. lia.
    + destruct (fixed_string_chars_invalid (request_explanation cfg))
        as [Zy Zn].
      rewrite Zy in Hy. rewrite Zn in Hn. lia.
  - cbn [iterate] in Hy, Hn. rewrite <- replies_of_batch in Hy, Hn. lia.
Qed.

(** ** What is printed *)

Lemma batch_answers_succ (srv : service) (q : string) (m : model_name)
    (re : bool) (n : nat) (w w1 : world) :
  sent w1 = (sent w ++ [mkRequest 500 (model_map m) (make_prompt q re)])%list ->
  batch_answers srv q m re (S n) w
  = srv (List.length (sent w)) (mkRequest 500 (model_map m) (make_prompt q re))
    :: batch_answers srv q m re n w1.
Proof.
  intros Hs. unfold batch_answers.
  cbn [seq map]. rewrite Nat.add_0_r. f_equal.
  rewrite <- seq_shift, map_map, Hs, length_app. simpl.
  apply map_ext. intros i. f_equal. lia.
Qed.

Lemma sequential_loop_stdout (srv : service) (cfg : config) (n : nat) :
  forall (st : loop_state) (w : world),
    stdout (final (sequential_loop srv cfg n st w))
    = (stdout w
       ++ flat_map printed_line
            (batch_answers srv (question cfg) (model_type cfg)
               (request_explanation cfg) n w))%list.
Proof.
  induction n as [|n IH]; intros st w.
  - simpl. rewrite app_nil_r. reflexivity.
  - cbn [sequential_loop]. unfold bind.
    pose proof (query_claude_run srv (question cfg) (model_type cfg)
                  (request_explanation cfg) w) as Hq.
    cbv zeta in Hq.
    destruct (query_claude srv (question cfg) (model_type cfg)
                (request_explanation cfg) w) as [[t|e] w1] eqn:Eq.
    + rewrite IH.
      rewrite (batch_answers_succ srv _ _ _ n w w1).
      * destruct (srv (List.length (sent w)) _) as [e|r];
          injection Hq as _ ->; simpl;
          rewrite <- ?app_assoc; reflexivity.
      * destruct (srv (List.length (sent w)) _) as [e|r];
          injection Hq as _ ->; reflexivity.
    + destruct (srv (List.length (sent w)) _); discriminate.
Qed.

(** In sequential mode the run prints one line for each call that
    raised, in issue order, with the exception of that call; a response
    that has no first text is replaced by the fixed string without
    anything being printed. *)
Theorem sequential_run_prints_each_raised_error (srv : service)
    (cfg : config) (w : world) :
  use_async cfg = false ->
  stdout (final (collect srv cfg w))
  = (stdout w
     ++ flat_map printed_line
          (batch_answers srv (question cfg) (model_type cfg)
             (request_explanation cfg) (num_queries cfg) w))%list.
Proof.
  intros Hseq. unfold collect. rewrite Hseq. unfold bind.
  pose proof (sequential_loop_stdout srv cfg (num_queries cfg) loop_init w) as H.
  destruct (sequential_loop srv cfg (num_queries cfg) loop_init w)
    as [[st|e] w1]; exact H.
Qed.

Lemma sequential_run_prints_each_raised_error_witness :
  use_async (one_failure_run false) = false
  /\ stdout (final (collect one_failure_service (one_failure_run false) world0))
     = (stdout world0
        ++ flat_map printed_line
             (batch_answers one_failure_service
                (question (one_failure_run false))
                (model_type (one_failure_run false))
                (request_explanation (one_failure_run false))
                (num_queries (one_failure_run false)) world0))%list.
Proof.
  split; [reflexivity|].
  exact (sequential_run_prints_each_raised_error one_failure_service
           (one_failure_run false) world0 eq_refl).
Defined.

(** ** The report of the negated question *)

Section Mirror.

Local Open Scope R_scope.

Lemma binom_tail_complement (n : nat) :
  forall a x, (a <= S n)%nat ->
  binom_tail n a x + binom_tail n (S n - a) (1 - x) = 1.
Proof.
  induction n as [|n IH]; intros a x Ha.
  - destruct a as [|[|a]]; simpl; try lia; ring.
  - destruct a as [|a].
    + rewrite binom_tail_all, binom_tail_zero_above by lia. ring.
    + destruct (Nat.eq_dec a (S n)) as [->|Hne].
      * rewrite Nat.sub_diag, binom_tail_all, binom_tail_zero_above by lia.
        ring.
      * replace (S (S n) - S a)%nat with (S (n - a)) by lia.
        rewrite !binom_tail_step.
        pose proof (IH a x ltac:(lia)) as I1.
        pose proof (IH (S a) x ltac:(lia)) as I2.
        replace (S n - a)%nat with (S (n - a)) in I1 by lia.
        replace (S n - S a)%nat with (n - a)%nat in I2 by lia.
        nra.
Qed.

Lemma beta_cdf_complement (a b : nat) (x : R) :
  (1 <= a)%nat -> (1 <= b)%nat ->
  beta_cdf a b x + beta_cdf b a (1 - x) = 1.
Proof.
  intros Ha Hb. unfold beta_cdf.
  pose proof (binom_tail_complement (a + b - 1) a x ltac:(lia)) as H.
  replace (S (a + b - 1) - a)%nat with b in H by lia.
  replace (b + a - 1)%nat with (a + b - 1)%nat by lia.
  exact H.
Qed.

Lemma percentile_mirror (q : R) (a b : nat) (p : R) :
  (1 <= a)%nat -> (1 <= b)%nat ->
  is_percentile q a b p -> is_percentile (1 - q) b a (1 - p).
Proof.
  intros Ha Hb [Hp Ep]. split; [lra|].
  pose proof (beta_cdf_complement a b p Ha Hb). lra.
Qed.

Lemma beta_ppf_mirror (q : R) (a b : nat) :
  0 < q < 1 -> (1 <= a)%nat -> (1 <= b)%nat ->
  beta_ppf (1 - q) b a = 1 - beta_ppf q a b.
Proof.
  intros Hq Ha Hb.
  apply (percentile_unique (1 - q) b a); auto.
  - apply beta_ppf_percentile; [lra | exact Hb | exact Ha].
  - apply percentile_mirror; auto. apply beta_ppf_percentile; auto.
Qed.

(** Exchanging the numbers of Yes and No, as the negated question would,
    mirrors the report: the estimate becomes 100 minus the estimate, and
    the interval becomes the interval reflected about 50. *)
Theorem negated_question_mirrors_report (t : tally) (re : bool)
    (s : option string) :
  (0 < valid_responses t)%nat ->
  valid_responses t = (yes_count t + no_count t)%nat ->
  exists r r',
    render t re s = Success r
    /\ render (swap_counts t) re s = Success r'
    /\ rep_yes_percentage r' = 100 - rep_yes_percentage r
    /\ rep_ci_low r' = 100 - rep_ci_high r
    /\ rep_ci_high r' = 100 - rep_ci_low r.
Proof.
  intros Hpos Hv.
  rewrite (render_valid t re s Hpos).
  rewrite (render_valid (swap_counts t) re s) by exact Hpos.
  eexists. eexists. split; [reflexivity|]. split; [reflexivity|].
  cbn [rep_yes_percentage rep_ci_low rep_ci_high swap_counts yes_count
       no_count valid_responses].
  assert (Hd : INR (valid_responses t) <> 0) by (apply not_0_INR; lia).
  split; [|split].
  - rewrite Hv, plus_INR in *. field. exact Hd.
  - replace (25 / 1000) with (1 - 975 / 1000) by lra.
    rewrite beta_ppf_mirror by (try lra; lia). lra.
  - replace (975 / 1000) with (1 - 25 / 1000) at 1 by lra.
    rewrite beta_ppf_mirror by (try lra; lia). lra.
Qed.

End Mirror.

Lemma negated_question_mirrors_report_witness :
  let t := mkTally 2 1 3 (PyList ["yes"; "no"; "yes"]) (PyList []) in
  (0 < valid_responses t)%nat
  /\ valid_responses t = (yes_count t + no_count t)%nat
  /\ exists r r',
       render t false None = Success r
       /\ render (swap_counts t) false None = Success r'
       /\ rep_yes_percentage r' = (100 - rep_yes_percentage r)%R
       /\ rep_ci_low r' = (100 - rep_ci_high r)%R
       /\ rep_ci_high r' = (100 - rep_ci_low r)%R.
Proof.
  intros t.
  assert (H1 : (0 < valid_responses t)%nat) by (simpl; lia).
  assert (H2 : valid_responses t = (yes_count t + no_count t)%nat)
    by reflexivity.
  split; [exact H1|]. split; [exact H2|].
  exact (negated_question_mirrors_report t false None H1 H2).
Defined.
